(** * Panorama renderer: sphere mesh, texture loading and the render call

    A shallow embedding of the WebGL panorama renderer ([window.Panorama]):
    the constructor with its two mesh-building loops, [setImage] with its
    [load] and [error] handlers, and [render].  The graphics context is an
    explicit state (object allocation, bindings, buffer and texture stores,
    and the log of every call), the renderer instance is a record, and the
    host's event dispatching is a list of events run by [step]. *)

From Stdlib Require Import ZArith Lia Reals String.
From Stdlib Require Floats.
From stdpp Require Import base list gmap strings.

Local Open Scope Z_scope.

(** ** The host's numbers

    The vertex loop computes with JavaScript Numbers and [Math.sin],
    [Math.cos], [Math.PI].  The operations it uses are collected in an
    interface; the code is embedded once, for any host that provides them. *)

Class MathHost (num : Type) := {
  ofZ : Z -> num;          (* an integer loop counter or literal as a Number *)
  mul : num -> num -> num; (* [a * b] *)
  div : num -> num -> num; (* [a / b] *)
  neg : num -> num;        (* unary [-a] *)
  Math_PI : num;
  Math_sin : num -> num;
  Math_cos : num -> num;
}.

Declare Scope num_scope.
Delimit Scope num_scope with num.
Infix "*" := mul : num_scope.
Infix "/" := div : num_scope.
Notation "- x" := (neg x) : num_scope.

(** ** Mesh builder: the two loops of the constructor *)

Section Mesh.
Context {num : Type} `{MathHost num}.

(** [for (i = 0; i <= latSegments; ++i) for (j = 0; j <= lonSegments; ++j)]:
    the flat array [panoVerts] after the vertex loop, five Numbers pushed
    per grid point. *)
Definition panoVerts (radius : num) (latSegments lonSegments : Z) : list num :=
  i ← seqZ 0 (latSegments + 1);
  let theta := (ofZ i * Math_PI / ofZ latSegments)%num in
  let sinTheta := Math_sin theta in
  let cosTheta := Math_cos theta in
  j ← seqZ 0 (lonSegments + 1);
  let phi := (ofZ j * ofZ 2 * Math_PI / ofZ lonSegments)%num in
  let sinPhi := Math_sin phi in
  let cosPhi := Math_cos phi in
  let x := (sinPhi * sinTheta)%num in
  let y := cosTheta in
  let z := (- cosPhi * sinTheta)%num in
  let u := (ofZ j / ofZ lonSegments)%num in
  let v := (ofZ i / ofZ latSegments)%num in
  [ (x * radius)%num; (y * radius)%num; (z * radius)%num; u; v ].

(** The five Numbers that one pass of the inner loop pushes, as a function
    of the grid point [(i, j)]. *)
Definition vertex (radius : num) (latSegments lonSegments i j : Z) : list num :=
  let sinTheta := Math_sin (ofZ i * Math_PI / ofZ latSegments)%num in
  let cosTheta := Math_cos (ofZ i * Math_PI / ofZ latSegments)%num in
  let sinPhi := Math_sin (ofZ j * ofZ 2 * Math_PI / ofZ lonSegments)%num in
  let cosPhi := Math_cos (ofZ j * ofZ 2 * Math_PI / ofZ lonSegments)%num in
  [ (sinPhi * sinTheta * radius)%num;
    (cosTheta * radius)%num;
    (- cosPhi * sinTheta * radius)%num;
    (ofZ j / ofZ lonSegments)%num;
    (ofZ i / ofZ latSegments)%num ].

(** Every vertex takes five consecutive slots of [panoVerts] (the stride
    of 20 bytes that [render] declares is five 4-byte floats). *)
Definition floatsPerVertex : nat := 5.

Definition vertexCount (verts : list num) : Z :=
  Z.of_nat (length verts) / Z.of_nat floatsPerVertex.

(** The slots of vertex number [k]; the grid point [(i, j)] is vertex number
    [i * (lonSegments + 1) + j], as the index loop addresses it. *)
Definition vertexAt (verts : list num) (k : nat) : list num :=
  take floatsPerVertex (drop (k * floatsPerVertex) verts).
End Mesh.

(** The six indices pushed for the quad cell [(i, j)]. *)
Definition quad (lonSegments i j : Z) : list Z :=
  let offset0 := i * (lonSegments + 1) in
  let offset1 := (i + 1) * (lonSegments + 1) in
  let index0 := offset0 + j in
  let index1 := offset1 + j in
  [ index0; index1; index0 + 1;
    index1; index1 + 1; index0 + 1 ].

(** [for (i = 0; i < latSegments; ++i) for (j = 0; j < lonSegments; ++j)]:
    the array [panoIndices] after the index loop. *)
Definition panoIndices (latSegments lonSegments : Z) : list Z :=
  i ← seqZ 0 latSegments;
  j ← seqZ 0 lonSegments;
  quad lonSegments i j.

(** [new Uint16Array(a)] converts every element modulo 2^16. *)
Definition ToUint16 (x : Z) : Z := x mod 65536.
Definition Uint16Array_of (a : list Z) : list Z := ToUint16 <$> a.

(** ** The exact-arithmetic host

    Real numbers with the mathematical sine and cosine: the reading of the
    vertex formulas in which no operation rounds. *)

#[export] Instance R_host : MathHost R := {|
  ofZ := IZR;
  mul := Rmult;
  div := Rdiv;
  neg := Ropp;
  Math_PI := PI;
  Math_sin := sin;
  Math_cos := cos;
|}.

(** ** The binary64 host

    JavaScript Numbers are IEEE 754 binary64 values, and [*], [/] and unary
    [-] on them are the correctly rounded operations: the kernel's
    primitive floats.  [Math.PI] is the double nearest to pi.  [Math.sin]
    and [Math.cos] are left to the implementation by ECMA-262, which fixes
    only their values at zeros, infinities and NaN; they are parameters of
    the host. *)

Section Binary64.
Import PrimFloat SpecFloat FloatOps.
Local Open Scope float_scope.








End Binary64.

(** ** A state monad for the stateful code *)

Definition State (S A : Type) : Type := S -> A * S.

#[export] Instance State_ret {S} : MRet (State S) := fun A (a : A) s => (a, s).
#[export] Instance State_bind {S} : MBind (State S) :=
  fun A B (f : A -> State S B) (m : State S A) s => let '(a, s') := m s in f a s'.

Definition gets {S A} (f : S -> A) : State S A := fun s => (f s, s).
Definition modify {S} (f : S -> S) : State S unit := fun s => (tt, f s).
Definition exec {S A} (m : State S A) (s : S) : S := snd (m s).

(** ** Shader sources *)

Definition newline : string := String (Ascii.ascii_of_nat 10) EmptyString.

Definition panoVS : string := String.concat newline [
  "uniform mat4 projectionMat;";
  "uniform mat4 modelViewMat;";
  "attribute vec3 position;";
  "attribute vec2 texCoord;";
  "varying vec2 vTexCoord;";
  "void main() {";
  "  vTexCoord = texCoord;";
  "  gl_Position = projectionMat * modelViewMat * vec4( position, 1.0 );";
  "}" ]%string.

Definition panoFS : string := String.concat newline [
  "precision mediump float;";
  "uniform sampler2D diffuse;";
  "varying vec2 vTexCoord;";
  "void main() {";
  "  gl_FragColor = texture2D(diffuse, vTexCoord);";
  "}" ]%string.

(** ** The graphics context *)

Inductive GLenum :=
| ARRAY_BUFFER | ELEMENT_ARRAY_BUFFER | STATIC_DRAW
| VERTEX_SHADER | FRAGMENT_SHADER
| TEXTURE_2D | TEXTURE0 | RGB | UNSIGNED_BYTE
| TEXTURE_MAG_FILTER | TEXTURE_MIN_FILTER | TEXTURE_WRAP_S | TEXTURE_WRAP_T
| LINEAR | CLAMP_TO_EDGE
| FLOAT | UNSIGNED_SHORT | TRIANGLES.

#[export] Instance GLenum_eq_dec : EqDecision GLenum.
Proof. solve_decision. Defined.

(** Objects handed out by the context; the number is the object's identity. *)
Inductive WebGLTexture := TextureObject (id : nat).
Inductive WebGLBuffer := BufferObject (id : nat).

Definition textureId (t : WebGLTexture) : nat := let 'TextureObject n := t in n.
Definition bufferId (b : WebGLBuffer) : nat := let 'BufferObject n := b in n.

(** The image element made by [new Image()] in [setImage]; [imageId] is the
    identity of the object (the number of the [setImage] call that made it). *)
Record Image := {
  imageId : nat;
  crossOrigin : string;
  src : string;
}.

(** A uniform slot of the linked program, [glProgram.uniform.<name>]. *)
Inductive UniformLocation := UniformOf (name : string).

(** Calls on the shader-program helper, as they reach the context. *)
Inductive WGLUCall :=
| wglu_new
| wglu_attachShaderSource (source : string) (type : GLenum)
| wglu_bindAttribLocation (locations : list (string * Z))
| wglu_link
| wglu_use.

(** Modelled from the spec: [WGLUProgram], the shader-program helper that
    the constructor builds and [render] binds, is not among the sources.
    The spec describes it as a compiled pair of stages with named uniform
    slots and the attribute slots [position] and [texCoord], immutable after
    construction, which [render] binds before it uploads the uniforms.  The
    helper is therefore a value that the construction calls fill in and that
    [use] leaves as it is; each of its methods reaches the context as one
    logged call. *)
Record WGLUProgram := {
  shaderSources : list (string * GLenum);
  attrib : gmap string Z;
  linked : bool;
}.

Definition uniform (p : WGLUProgram) (name : string) : UniformLocation :=
  UniformOf name.

(** ** What the page's script needs from the host

    The script computes with decimal literals, reads the canvas size back
    after assigning to it, and calls the matrix library [mat4] (gl-matrix),
    which is not among the sources.  Each library function is taken as a
    parameter that gives the content of its [out] argument after the call;
    [toUnsignedLong] is the conversion applied when a Number is assigned to
    [canvas.width] or [canvas.height]. *)

Class ScriptHost (num : Type) := {
  decimal : Z -> nat -> num;   (* the literal written [m / 10^d] *)
  toUnsignedLong : num -> num;
  mat4_fromQuat : list num -> list num;
  mat4_invert : list num -> list num;
  mat4_perspective : num -> num -> num -> num -> list num;
}.

(** ** The symbolic host

    Numbers as the expressions that compute them: every operation of the
    host is a constructor, so nothing is assumed about what it returns. *)

Inductive HostFunction := FromQuat | Invert | Perspective.

#[warnings="-register-all"]
Inductive Sym :=
| SInt (z : Z)
| SDecimal (m : Z) (d : nat)
| SPI
| SMul (a b : Sym)
| SDiv (a b : Sym)
| SNeg (a : Sym)
| SSin (a : Sym)
| SCos (a : Sym)
| SUnsignedLong (a : Sym)
| SEntry (f : HostFunction) (args : list Sym) (i : nat).

#[export] Instance Sym_host : MathHost Sym := {|
  ofZ := SInt;
  mul := SMul;
  div := SDiv;
  neg := SNeg;
  Math_PI := SPI;
  Math_sin := SSin;
  Math_cos := SCos;
|}.

#[export] Instance Sym_script : ScriptHost Sym := {|
  decimal := SDecimal;
  toUnsignedLong := SUnsignedLong;
  mat4_fromQuat := fun q => SEntry FromQuat q <$> seq 0 16;
  mat4_invert := fun a => SEntry Invert a <$> seq 0 16;
  mat4_perspective := fun fovy aspect near far =>
    SEntry Perspective [fovy; aspect; near; far] <$> seq 0 16;
|}.

Section Renderer.
Context {num : Type} {host : MathHost num}.

(** A 4x4 matrix as the caller passes it: an array of Numbers. *)
Definition Mat4 : Type := list num.

(** [mat4.create()]: the identity matrix. *)
Definition mat4_create : Mat4 :=
  ofZ <$> [1; 0; 0; 0;  0; 1; 0; 0;  0; 0; 1; 0;  0; 0; 0; 1].

(** The typed arrays handed to [bufferData]. *)
Inductive BufferSource :=
| Float32Array (elems : list num)
| Uint16Array (elems : list Z).

(** One entry of the context's log per call made on it. *)
Inductive GLCall :=
| createTexture (result : WebGLTexture)
| createBuffer (result : WebGLBuffer)
| bindBuffer (target : GLenum) (buffer : WebGLBuffer)
| bufferData (target : GLenum) (data : BufferSource) (usage : GLenum)
| bindTexture (target : GLenum) (tex : WebGLTexture)
| texImage2D (target : GLenum) (level : Z) (internalformat format type : GLenum)
    (source : Image)
| texParameteri (target pname param : GLenum)
| uniformMatrix4fv (location : UniformLocation) (transpose : bool) (value : Mat4)
| uniform1i (location : UniformLocation) (value : Z)
| enableVertexAttribArray (index : Z)
| vertexAttribPointer (index size : Z) (type : GLenum) (normalized : bool)
    (stride offset : Z)
| activeTexture (texture : GLenum)
| drawElements (mode : GLenum) (count : Z) (type : GLenum) (offset : Z)
| program (call : WGLUCall).

(** The context: the next free object identity, the current bindings (the
    program only ever selects texture unit 0, so one [TEXTURE_2D] binding is
    kept), what each buffer and texture object holds, and the log of calls,
    oldest first. *)
Record WebGL := {
  nextObject : nat;
  arrayBuffer : option WebGLBuffer;
  elementArrayBuffer : option WebGLBuffer;
  texture2D : option WebGLTexture;
  bufferStore : gmap nat BufferSource;
  textureStore : gmap nat Image;
  calls : list GLCall;
}.

Definition GL (A : Type) : Type := State WebGL A.

Definition log (c : GLCall) (g : WebGL) : WebGL :=
  {| nextObject := nextObject g;
     arrayBuffer := arrayBuffer g;
     elementArrayBuffer := elementArrayBuffer g;
     texture2D := texture2D g;
     bufferStore := bufferStore g;
     textureStore := textureStore g;
     calls := calls g ++ [c] |}.

Definition allocate (g : WebGL) : WebGL :=
  {| nextObject := S (nextObject g);
     arrayBuffer := arrayBuffer g;
     elementArrayBuffer := elementArrayBuffer g;
     texture2D := texture2D g;
     bufferStore := bufferStore g;
     textureStore := textureStore g;
     calls := calls g |}.

(** [bindBuffer] and [bindTexture] set the binding of a target they know;
    [bufferData] and [texImage2D] write into the object bound to their
    target, and store nothing when no object is bound there. *)
Definition setBufferBinding (target : GLenum) (b : WebGLBuffer) (g : WebGL) : WebGL :=
  {| nextObject := nextObject g;
     arrayBuffer := if decide (target = ARRAY_BUFFER) then Some b else arrayBuffer g;
     elementArrayBuffer :=
       if decide (target = ELEMENT_ARRAY_BUFFER) then Some b else elementArrayBuffer g;
     texture2D := texture2D g;
     bufferStore := bufferStore g;
     textureStore := textureStore g;
     calls := calls g |}.

Definition bufferBinding (target : GLenum) (g : WebGL) : option WebGLBuffer :=
  if decide (target = ARRAY_BUFFER) then arrayBuffer g
  else if decide (target = ELEMENT_ARRAY_BUFFER) then elementArrayBuffer g
  else None.

Definition storeBuffer (target : GLenum) (data : BufferSource) (g : WebGL) : WebGL :=
  {| nextObject := nextObject g;
     arrayBuffer := arrayBuffer g;
     elementArrayBuffer := elementArrayBuffer g;
     texture2D := texture2D g;
     bufferStore :=
       match bufferBinding target g with
       | Some b => <[bufferId b := data]> (bufferStore g)
       | None => bufferStore g
       end;
     textureStore := textureStore g;
     calls := calls g |}.

Definition setTextureBinding (target : GLenum) (t : WebGLTexture) (g : WebGL) : WebGL :=
  {| nextObject := nextObject g;
     arrayBuffer := arrayBuffer g;
     elementArrayBuffer := elementArrayBuffer g;
     texture2D := if decide (target = TEXTURE_2D) then Some t else texture2D g;
     bufferStore := bufferStore g;
     textureStore := textureStore g;
     calls := calls g |}.

Definition storeTexture (target : GLenum) (img : Image) (g : WebGL) : WebGL :=
  {| nextObject := nextObject g;
     arrayBuffer := arrayBuffer g;
     elementArrayBuffer := elementArrayBuffer g;
     texture2D := texture2D g;
     bufferStore := bufferStore g;
     textureStore :=
       match (if decide (target = TEXTURE_2D) then texture2D g else None) with
       | Some t => <[textureId t := img]> (textureStore g)
       | None => textureStore g
       end;
     calls := calls g |}.

(** The context's methods. *)
Definition gl_createTexture : GL WebGLTexture := fun g =>
  let t := TextureObject (nextObject g) in
  (t, log (createTexture t) (allocate g)).

Definition gl_createBuffer : GL WebGLBuffer := fun g =>
  let b := BufferObject (nextObject g) in
  (b, log (createBuffer b) (allocate g)).

Definition gl_bindBuffer (target : GLenum) (b : WebGLBuffer) : GL unit :=
  modify (fun g => log (bindBuffer target b) (setBufferBinding target b g)).

Definition gl_bufferData (target : GLenum) (data : BufferSource) (usage : GLenum)
  : GL unit :=
  modify (fun g => log (bufferData target data usage) (storeBuffer target data g)).

Definition gl_bindTexture (target : GLenum) (t : WebGLTexture) : GL unit :=
  modify (fun g => log (bindTexture target t) (setTextureBinding target t g)).

Definition gl_texImage2D (target : GLenum) (level : Z)
    (internalformat format type : GLenum) (source : Image) : GL unit :=
  modify (fun g =>
    log (texImage2D target level internalformat format type source)
        (storeTexture target source g)).

Definition gl_texParameteri (target pname param : GLenum) : GL unit :=
  modify (log (texParameteri target pname param)).

Definition gl_uniformMatrix4fv (location : UniformLocation) (transpose : bool)
    (value : Mat4) : GL unit :=
  modify (log (uniformMatrix4fv location transpose value)).

Definition gl_uniform1i (location : UniformLocation) (value : Z) : GL unit :=
  modify (log (uniform1i location value)).

Definition gl_enableVertexAttribArray (index : Z) : GL unit :=
  modify (log (enableVertexAttribArray index)).

Definition gl_vertexAttribPointer (index size : Z) (type : GLenum)
    (normalized : bool) (stride offset : Z) : GL unit :=
  modify (log (vertexAttribPointer index size type normalized stride offset)).

Definition gl_activeTexture (texture : GLenum) : GL unit :=
  modify (log (activeTexture texture)).

Definition gl_drawElements (mode : GLenum) (count : Z) (type : GLenum) (offset : Z)
  : GL unit :=
  modify (log (drawElements mode count type offset)).

(** The helper's methods (see [WGLUProgram]). *)
Definition WGLUProgram_new : GL WGLUProgram := fun g =>
  ({| shaderSources := []; attrib := ∅; linked := false |},
   log (program wglu_new) g).

Definition attachShaderSource (p : WGLUProgram) (source : string) (type : GLenum)
  : GL WGLUProgram := fun g =>
  ({| shaderSources := shaderSources p ++ [(source, type)];
      attrib := attrib p; linked := linked p |},
   log (program (wglu_attachShaderSource source type)) g).

Definition bindAttribLocation (p : WGLUProgram) (locations : list (string * Z))
  : GL WGLUProgram := fun g =>
  ({| shaderSources := shaderSources p;
      attrib := list_to_map locations ∪ attrib p; linked := linked p |},
   log (program (wglu_bindAttribLocation locations)) g).

Definition link (p : WGLUProgram) : GL WGLUProgram := fun g =>
  ({| shaderSources := shaderSources p; attrib := attrib p; linked := true |},
   log (program wglu_link) g).

Definition use (p : WGLUProgram) : GL unit :=
  modify (log (program wglu_use)).

(** ** The renderer instance and its constructor *)

(** The fields of a [Panorama] object.  Its [gl] field refers to the one
    context of the page, which is the [gl] component of the [World] below;
    [imgElement] is [None] for the source's [null]. *)
Record Panorama := {
  texture : WebGLTexture;
  glProgram : WGLUProgram;
  vertBuffer : WebGLBuffer;
  indexBuffer : WebGLBuffer;
  indexCount : Z;
  imgElement : option Image;
}.

(** The constants of the constructor. *)
Definition radius : num := ofZ 2.
Definition latSegments : Z := 40.
Definition lonSegments : Z := 40.

(** [new Panorama(gl)]. *)
Definition Panorama_new : GL Panorama :=
  texture ← gl_createTexture;
  glProgram ← WGLUProgram_new;
  glProgram ← attachShaderSource glProgram panoVS VERTEX_SHADER;
  glProgram ← attachShaderSource glProgram panoFS FRAGMENT_SHADER;
  glProgram ← bindAttribLocation glProgram [("position", 0); ("texCoord", 1)];
  glProgram ← link glProgram;
  let panoVerts := panoVerts radius latSegments lonSegments in
  let panoIndices := panoIndices latSegments lonSegments in
  vertBuffer ← gl_createBuffer;
  gl_bindBuffer ARRAY_BUFFER vertBuffer;;
  gl_bufferData ARRAY_BUFFER (Float32Array panoVerts) STATIC_DRAW;;
  indexBuffer ← gl_createBuffer;
  gl_bindBuffer ELEMENT_ARRAY_BUFFER indexBuffer;;
  gl_bufferData ELEMENT_ARRAY_BUFFER (Uint16Array (Uint16Array_of panoIndices))
    STATIC_DRAW;;
  mret {| texture := texture;
          glProgram := glProgram;
          vertBuffer := vertBuffer;
          indexBuffer := indexBuffer;
          indexCount := Z.of_nat (length panoIndices);
          imgElement := None |}.

(** ** The page: context, renderer, pending loads and console *)

(** The promise returned by [setImage]: it settles once, later calls of
    [resolve] or [reject] change nothing.  A resolved promise carries the
    value of [self.imgElement], a rejected one the event's [message]
    ([None] when the event has none). *)
Inductive Promise :=
| Pending
| Fulfilled (value : option Image)
| Rejected (reason : option string).

Definition resolve (value : option Image) (p : Promise) : Promise :=
  match p with Pending => Fulfilled value | _ => p end.

Definition reject (reason : option string) (p : Promise) : Promise :=
  match p with Pending => Rejected reason | _ => p end.

(** The event object passed to an [error] listener. *)
Record ErrorEvent := { message : option string }.

Record World := {
  gl : WebGL;
  self : Panorama;
  loads : list (Image * Promise);   (* one entry per [setImage] call *)
  console : list (option string);   (* what [console.error] printed *)
}.

Definition JS (A : Type) : Type := State World A.

Definition liftGL {A} (m : GL A) : JS A := fun w =>
  let '(a, g) := m (gl w) in
  (a, {| gl := g; self := self w; loads := loads w; console := console w |}).

Definition set_imgElement (img : option Image) : JS unit :=
  modify (fun w =>
    {| gl := gl w;
       self := {| texture := texture (self w);
                  glProgram := glProgram (self w);
                  vertBuffer := vertBuffer (self w);
                  indexBuffer := indexBuffer (self w);
                  indexCount := indexCount (self w);
                  imgElement := img |};
       loads := loads w;
       console := console w |}).

Definition console_error (msg : option string) : JS unit :=
  modify (fun w =>
    {| gl := gl w; self := self w; loads := loads w;
       console := console w ++ [msg] |}).

(** Settling the promise of the [k]-th [setImage] call. *)
Definition settle (k : nat) (f : Promise -> Promise) : JS unit :=
  modify (fun w =>
    {| gl := gl w; self := self w;
       loads := alter (fun '(img, p) => (img, f p)) k (loads w);
       console := console w |}).

(** [Panorama.prototype.setImage(url)]: a new image element with the two
    listeners, [crossOrigin] and [src] set, and a pending promise.  The
    result is the number of the promise. *)
Definition setImage (url : string) : JS nat := fun w =>
  let k := length (loads w) in
  let img := {| imageId := k; crossOrigin := "anonymous"; src := url |} in
  (k, {| gl := gl w; self := self w;
         loads := loads w ++ [(img, Pending)];
         console := console w |}).

(** The [load] listener of the [k]-th image. *)
Definition onload (k : nat) (img : Image) : JS unit :=
  set_imgElement (Some img);;
  texture ← gets (fun w => texture (self w));
  liftGL (gl_bindTexture TEXTURE_2D texture);;
  liftGL (gl_texImage2D TEXTURE_2D 0 RGB RGB UNSIGNED_BYTE img);;
  liftGL (gl_texParameteri TEXTURE_2D TEXTURE_MAG_FILTER LINEAR);;
  liftGL (gl_texParameteri TEXTURE_2D TEXTURE_MIN_FILTER LINEAR);;
  liftGL (gl_texParameteri TEXTURE_2D TEXTURE_WRAP_S CLAMP_TO_EDGE);;
  liftGL (gl_texParameteri TEXTURE_2D TEXTURE_WRAP_T CLAMP_TO_EDGE);;
  imgElement ← gets (fun w => imgElement (self w));
  settle k (resolve imgElement).

(** The [error] listener of the [k]-th image. *)
Definition onerror (k : nat) (ev : ErrorEvent) : JS unit :=
  console_error (message ev);;
  settle k (reject (message ev)).

(** [Panorama.prototype.render(projectionMat, modelViewMat)]. *)
Definition render (projectionMat modelViewMat : Mat4) : JS unit :=
  this ← gets self;
  let glProgram := glProgram this in
  match imgElement this with
  | None => mret tt
  | Some _ =>
    liftGL (use glProgram);;
    liftGL (gl_uniformMatrix4fv (uniform glProgram "projectionMat") false projectionMat);;
    liftGL (gl_uniformMatrix4fv (uniform glProgram "modelViewMat") false modelViewMat);;
    liftGL (gl_bindBuffer ARRAY_BUFFER (vertBuffer this));;
    liftGL (gl_bindBuffer ELEMENT_ARRAY_BUFFER (indexBuffer this));;
    liftGL (gl_enableVertexAttribArray (attrib glProgram !!! "position"));;
    liftGL (gl_enableVertexAttribArray (attrib glProgram !!! "texCoord"));;
    liftGL (gl_vertexAttribPointer (attrib glProgram !!! "position") 3 FLOAT false 20 0);;
    liftGL (gl_vertexAttribPointer (attrib glProgram !!! "texCoord") 2 FLOAT false 20 12);;
    liftGL (gl_activeTexture TEXTURE0);;
    liftGL (gl_uniform1i (uniform glProgram "diffuse") 0);;
    liftGL (gl_bindTexture TEXTURE_2D (texture this));;
    liftGL (gl_drawElements TRIANGLES (indexCount this) UNSIGNED_SHORT 0)
  end.

(** ** Running the page

    What can happen to a page that holds one renderer: the caller calls
    [setImage] or [render], or the host dispatches [load] or [error] on the
    image element of an earlier [setImage] call. *)
Inductive Event :=
| CallSetImage (url : string)
| FireLoad (k : nat)
| FireError (k : nat) (ev : ErrorEvent)
| CallRender (projectionMat modelViewMat : Mat4).

Definition step (w : World) (e : Event) : World :=
  match e with
  | CallSetImage url => exec (setImage url) w
  | FireLoad k =>
      match loads w !! k with
      | Some (img, _) => exec (onload k img) w
      | None => w
      end
  | FireError k ev =>
      match loads w !! k with
      | Some _ => exec (onerror k ev) w
      | None => w
      end
  | CallRender projectionMat modelViewMat =>
      exec (render projectionMat modelViewMat) w
  end.

Definition run (w : World) (es : list Event) : World := foldl step w es.

(** The page right after [new Panorama(gl)] on the context [g]. *)
Definition start (g : WebGL) : World :=
  let '(p, g') := Panorama_new g in
  {| gl := g'; self := p; loads := []; console := [] |}.

(** A context on which nothing has been called yet. *)
Definition freshContext : WebGL :=
  {| nextObject := 0;
     arrayBuffer := None; elementArrayBuffer := None; texture2D := None;
     bufferStore := ∅; textureStore := ∅; calls := [] |}.

(** The calls that a context received between two of its states, and
    between two states of the page. *)
Definition emittedGL (g g' : WebGL) : list GLCall :=
  drop (length (calls g)) (calls g').

Definition emitted (w w' : World) : list GLCall := emittedGL (gl w) (gl w').

(** The guard of [render], [!this.imgElement], read as texture readiness. *)
Definition isReady (p : Panorama) : bool :=
  match imgElement p with Some _ => true | None => false end.

Definition isDraw (c : GLCall) : bool :=
  match c with drawElements _ _ _ _ => true | _ => false end.

Definition isCreateTexture (c : GLCall) : bool :=
  match c with createTexture _ => true | _ => false end.

Definition drawCalls (l : list GLCall) : list GLCall := filter isDraw l.

Definition isUniformMatrix4fv (c : GLCall) : bool :=
  match c with uniformMatrix4fv _ _ _ => true | _ => false end.

Definition uniformUploads (l : list GLCall) : list GLCall :=
  filter isUniformMatrix4fv l.

(** The calls of one [render(P, V)] made on the page [w]. *)
Definition frame (w : World) (P V : Mat4) : list GLCall :=
  emitted w (exec (render P V) w).

(** What every page reached from the page [w0] keeps: the fields that only
    the constructor writes, the objects of the context, a log that extends
    the one of [w0] without another [createTexture], the content of every
    texture but the renderer's, the last loaded image as the content of the
    renderer's texture, and a loaded image behind every fulfilled promise. *)
Record invariant (w0 w : World) : Prop := {
  inv_texture : texture (self w) = texture (self w0);
  inv_glProgram : glProgram (self w) = glProgram (self w0);
  inv_vertBuffer : vertBuffer (self w) = vertBuffer (self w0);
  inv_indexBuffer : indexBuffer (self w) = indexBuffer (self w0);
  inv_indexCount : indexCount (self w) = indexCount (self w0);
  inv_nextObject : nextObject (gl w) = nextObject (gl w0);
  inv_bufferStore : bufferStore (gl w) = bufferStore (gl w0);
  inv_calls : exists l,
    calls (gl w) = calls (gl w0) ++ l /\ filter isCreateTexture l = [];
  inv_other_textures : forall t,
    t <> textureId (texture (self w0)) ->
    textureStore (gl w) !! t = textureStore (gl w0) !! t;
  inv_uploaded : forall img,
    imgElement (self w) = Some img ->
    textureStore (gl w) !! textureId (texture (self w0)) = Some img;
  inv_fulfilled : forall k img v,
    loads w !! k = Some (img, Fulfilled v) -> isReady (self w) = true;
}.

(** ** The page's script: set-up of WebGL and WebVR and the animation loop

    The script that owns the context and the renderer.  Its module-level
    variables and the part of the host it talks to (what [getContext] will
    return, the layout of the canvas, pending promises and scheduled
    animation callbacks) make up the state [Shell]; every call it makes on
    the context, the display, the window or the button helper is appended
    to [trace], with the calls of the renderer in between as [context]
    entries, so that [trace] is the order in which the host saw them. *)

Context {script : ScriptHost num}.

Inductive Capability := DEPTH_TEST | CULL_FACE.

Definition COLOR_BUFFER_BIT : Z := 16384.
Definition DEPTH_BUFFER_BIT : Z := 256.

(** The functions of the script that it hands to the host as callbacks. *)
Inductive Handler :=
| Handler_onVRRequestPresent
| Handler_onVRExitPresent
| Handler_onVRPresentChange
| Handler_onAnimationFrame.

(** The element returned by [VRSamplesUtil.addButton]. *)
Inductive Button := ButtonElement (id : nat).

(** A [VRDisplay] as far as the script reads and writes it. *)
Record VRDisplay := {
  displayId : nat;
  isPresenting : bool;
  depthNear : option num;
  depthFar : option num;
}.

(** What [getFrameData] delivers.  [orientation] is [frameData.pose.orientation],
    a quaternion, or [None] for the [null] a display reports while it cannot
    sense its orientation. *)
Record FrameData := {
  leftProjectionMatrix : Mat4;
  rightProjectionMatrix : Mat4;
  orientation : option (list num);
}.

(** The reason a [requestPresent] promise is rejected with: [None] for no
    argument, otherwise the [message] property of the error ([None] when it
    has none). *)
Definition PresentError : Type := option (option string).

Inductive ScriptCall :=
| getContext (contextId : string) (alpha antialias preserveDrawingBuffer : bool)
| enable (cap : Capability)
| clear (mask : Z)
| viewport (x y width height : num)
| context (c : GLCall)
| window_requestAnimationFrame (callback : Handler)
| navigator_getVRDisplays
| display_requestAnimationFrame (callback : Handler)
| display_getFrameData
| display_submitFrame
| display_requestPresent
| display_exitPresent
| addButton (label key icon : string) (onclick : Handler) (result : Button)
| removeButton (button : option Button)
| addError (msg : string) (timeout : option Z)
| addInfo (msg : string)
| addEventListener (type : string) (listener : Handler).

Record Shell := {
  (* the variables of the script *)
  vrDisplay : option VRDisplay;
  frameData : option (option FrameData);   (* [Some None]: not yet filled *)
  poseMat : Mat4;
  viewMat : Mat4;
  vrPresentButton : option Button;
  projectionMat : Mat4;
  page : option World;                     (* [gl] and [panorama]; [None]: null *)
  canvasWidth : num;
  canvasHeight : num;
  (* the host *)
  hostContext : option WebGL;              (* what [getContext] returns *)
  offsetWidth : num;
  offsetHeight : num;
  devicePixelRatio : num;
  displaysPending : bool;                  (* [getVRDisplays()] not yet settled *)
  presentRequests : nat;                   (* pending [requestPresent] promises *)
  exitRequests : nat;                      (* pending [exitPresent] promises *)
  scheduled : nat;                         (* pending animation callbacks *)
  nextButton : nat;
  trace : list ScriptCall;
}.

Definition set_vrDisplay (v : option VRDisplay) (s : Shell) : Shell :=
  {| vrDisplay := v;
     frameData := frameData s;
     poseMat := poseMat s;
     viewMat := viewMat s;
     vrPresentButton := vrPresentButton s;
     projectionMat := projectionMat s;
     page := page s;
     canvasWidth := canvasWidth s;
     canvasHeight := canvasHeight s;
     hostContext := hostContext s;
     offsetWidth := offsetWidth s;
     offsetHeight := offsetHeight s;
     devicePixelRatio := devicePixelRatio s;
     displaysPending := displaysPending s;
     presentRequests := presentRequests s;
     exitRequests := exitRequests s;
     scheduled := scheduled s;
     nextButton := nextButton s;
     trace := trace s |}.

Definition set_frameData (v : option (option FrameData)) (s : Shell) : Shell :=
  {| vrDisplay := vrDisplay s;
     frameData := v;
     poseMat := poseMat s;
     viewMat := viewMat s;
     vrPresentButton := vrPresentButton s;
     projectionMat := projectionMat s;
     page := page s;
     canvasWidth := canvasWidth s;
     canvasHeight := canvasHeight s;
     hostContext := hostContext s;
     offsetWidth := offsetWidth s;
     offsetHeight := offsetHeight s;
     devicePixelRatio := devicePixelRatio s;
     displaysPending := displaysPending s;
     presentRequests := presentRequests s;
     exitRequests := exitRequests s;
     scheduled := scheduled s;
     nextButton := nextButton s;
     trace := trace s |}.

Definition set_viewMat (v : Mat4) (s : Shell) : Shell :=
  {| vrDisplay := vrDisplay s;
     frameData := frameData s;
     poseMat := poseMat s;
     viewMat := v;
     vrPresentButton := vrPresentButton s;
     projectionMat := projectionMat s;
     page := page s;
     canvasWidth := canvasWidth s;
     canvasHeight := canvasHeight s;
     hostContext := hostContext s;
     offsetWidth := offsetWidth s;
     offsetHeight := offsetHeight s;
     devicePixelRatio := devicePixelRatio s;
     displaysPending := displaysPending s;
     presentRequests := presentRequests s;
     exitRequests := exitRequests s;
     scheduled := scheduled s;
     nextButton := nextButton s;
     trace := trace s |}.

Definition set_vrPresentButton (v : option Button) (s : Shell) : Shell :=
  {| vrDisplay := vrDisplay s;
     frameData := frameData s;
     poseMat := poseMat s;
     viewMat := viewMat s;
     vrPresentButton := v;
     projectionMat := projectionMat s;
     page := page s;
     canvasWidth := canvasWidth s;
     canvasHeight := canvasHeight s;
     hostContext := hostContext s;
     offsetWidth := offsetWidth s;
     offsetHeight := offsetHeight s;
     devicePixelRatio := devicePixelRatio s;
     displaysPending := displaysPending s;
     presentRequests := presentRequests s;
     exitRequests := exitRequests s;
     scheduled := scheduled s;
     nextButton := nextButton s;
     trace := trace s |}.

Definition set_projectionMat (v : Mat4) (s : Shell) : Shell :=
  {| vrDisplay := vrDisplay s;
     frameData := frameData s;
     poseMat := poseMat s;
     viewMat := viewMat s;
     vrPresentButton := vrPresentButton s;
     projectionMat := v;
     page := page s;
     canvasWidth := canvasWidth s;
     canvasHeight := canvasHeight s;
     hostContext := hostContext s;
     offsetWidth := offsetWidth s;
     offsetHeight := offsetHeight s;
     devicePixelRatio := devicePixelRatio s;
     displaysPending := displaysPending s;
     presentRequests := presentRequests s;
     exitRequests := exitRequests s;
     scheduled := scheduled s;
     nextButton := nextButton s;
     trace := trace s |}.

Definition set_page (v : option World) (s : Shell) : Shell :=
  {| vrDisplay := vrDisplay s;
     frameData := frameData s;
     poseMat := poseMat s;
     viewMat := viewMat s;
     vrPresentButton := vrPresentButton s;
     projectionMat := projectionMat s;
     page := v;
     canvasWidth := canvasWidth s;
     canvasHeight := canvasHeight s;
     hostContext := hostContext s;
     offsetWidth := offsetWidth s;
     offsetHeight := offsetHeight s;
     devicePixelRatio := devicePixelRatio s;
     displaysPending := displaysPending s;
     presentRequests := presentRequests s;
     exitRequests := exitRequests s;
     scheduled := scheduled s;
     nextButton := nextButton s;
     trace := trace s |}.

Definition set_canvasWidth (v : num) (s : Shell) : Shell :=
  {| vrDisplay := vrDisplay s;
     frameData := frameData s;
     poseMat := poseMat s;
     viewMat := viewMat s;
     vrPresentButton := vrPresentButton s;
     projectionMat := projectionMat s;
     page := page s;
     canvasWidth := v;
     canvasHeight := canvasHeight s;
     hostContext := hostContext s;
     offsetWidth := offsetWidth s;
     offsetHeight := offsetHeight s;
     devicePixelRatio := devicePixelRatio s;
     displaysPending := displaysPending s;
     presentRequests := presentRequests s;
     exitRequests := exitRequests s;
     scheduled := scheduled s;
     nextButton := nextButton s;
     trace := trace s |}.

Definition set_canvasHeight (v : num) (s : Shell) : Shell :=
  {| vrDisplay := vrDisplay s;
     frameData := frameData s;
     poseMat := poseMat s;
     viewMat := viewMat s;
     vrPresentButton := vrPresentButton s;
     projectionMat := projectionMat s;
     page := page s;
     canvasWidth := canvasWidth s;
     canvasHeight := v;
     hostContext := hostContext s;
     offsetWidth := offsetWidth s;
     offsetHeight := offsetHeight s;
     devicePixelRatio := devicePixelRatio s;
     displaysPending := displaysPending s;
     presentRequests := presentRequests s;
     exitRequests := exitRequests s;
     scheduled := scheduled s;
     nextButton := nextButton s;
     trace := trace s |}.

Definition set_offsetWidth (v : num) (s : Shell) : Shell :=
  {| vrDisplay := vrDisplay s;
     frameData := frameData s;
     poseMat := poseMat s;
     viewMat := viewMat s;
     vrPresentButton := vrPresentButton s;
     projectionMat := projectionMat s;
     page := page s;
     canvasWidth := canvasWidth s;
     canvasHeight := canvasHeight s;
     hostContext := hostContext s;
     offsetWidth := v;
     offsetHeight := offsetHeight s;
     devicePixelRatio := devicePixelRatio s;
     displaysPending := displaysPending s;
     presentRequests := presentRequests s;
     exitRequests := exitRequests s;
     scheduled := scheduled s;
     nextButton := nextButton s;
     trace := trace s |}.

Definition set_offsetHeight (v : num) (s : Shell) : Shell :=
  {| vrDisplay := vrDisplay s;
     frameData := frameData s;
     poseMat := poseMat s;
     viewMat := viewMat s;
     vrPresentButton := vrPresentButton s;
     projectionMat := projectionMat s;
     page := page s;
     canvasWidth := canvasWidth s;
     canvasHeight := canvasHeight s;
     hostContext := hostContext s;
     offsetWidth := offsetWidth s;
     offsetHeight := v;
     devicePixelRatio := devicePixelRatio s;
     displaysPending := displaysPending s;
     presentRequests := presentRequests s;
     exitRequests := exitRequests s;
     scheduled := scheduled s;
     nextButton := nextButton s;
     trace := trace s |}.

Definition set_devicePixelRatio (v : num) (s : Shell) : Shell :=
  {| vrDisplay := vrDisplay s;
     frameData := frameData s;
     poseMat := poseMat s;
     viewMat := viewMat s;
     vrPresentButton := vrPresentButton s;
     projectionMat := projectionMat s;
     page := page s;
     canvasWidth := canvasWidth s;
     canvasHeight := canvasHeight s;
     hostContext := hostContext s;
     offsetWidth := offsetWidth s;
     offsetHeight := offsetHeight s;
     devicePixelRatio := v;
     displaysPending := displaysPending s;
     presentRequests := presentRequests s;
     exitRequests := exitRequests s;
     scheduled := scheduled s;
     nextButton := nextButton s;
     trace := trace s |}.

Definition set_displaysPending (v : bool) (s : Shell) : Shell :=
  {| vrDisplay := vrDisplay s;
     frameData := frameData s;
     poseMat := poseMat s;
     viewMat := viewMat s;
     vrPresentButton := vrPresentButton s;
     projectionMat := projectionMat s;
     page := page s;
     canvasWidth := canvasWidth s;
     canvasHeight := canvasHeight s;
     hostContext := hostContext s;
     offsetWidth := offsetWidth s;
     offsetHeight := offsetHeight s;
     devicePixelRatio := devicePixelRatio s;
     displaysPending := v;
     presentRequests := presentRequests s;
     exitRequests := exitRequests s;
     scheduled := scheduled s;
     nextButton := nextButton s;
     trace := trace s |}.

Definition set_presentRequests (v : nat) (s : Shell) : Shell :=
  {| vrDisplay := vrDisplay s;
     frameData := frameData s;
     poseMat := poseMat s;
     viewMat := viewMat s;
     vrPresentButton := vrPresentButton s;
     projectionMat := projectionMat s;
     page := page s;
     canvasWidth := canvasWidth s;
     canvasHeight := canvasHeight s;
     hostContext := hostContext s;
     offsetWidth := offsetWidth s;
     offsetHeight := offsetHeight s;
     devicePixelRatio := devicePixelRatio s;
     displaysPending := displaysPending s;
     presentRequests := v;
     exitRequests := exitRequests s;
     scheduled := scheduled s;
     nextButton := nextButton s;
     trace := trace s |}.

Definition set_exitRequests (v : nat) (s : Shell) : Shell :=
  {| vrDisplay := vrDisplay s;
     frameData := frameData s;
     poseMat := poseMat s;
     viewMat := viewMat s;
     vrPresentButton := vrPresentButton s;
     projectionMat := projectionMat s;
     page := page s;
     canvasWidth := canvasWidth s;
     canvasHeight := canvasHeight s;
     hostContext := hostContext s;
     offsetWidth := offsetWidth s;
     offsetHeight := offsetHeight s;
     devicePixelRatio := devicePixelRatio s;
     displaysPending := displaysPending s;
     presentRequests := presentRequests s;
     exitRequests := v;
     scheduled := scheduled s;
     nextButton := nextButton s;
     trace := trace s |}.

Definition set_scheduled (v : nat) (s : Shell) : Shell :=
  {| vrDisplay := vrDisplay s;
     frameData := frameData s;
     poseMat := poseMat s;
     viewMat := viewMat s;
     vrPresentButton := vrPresentButton s;
     projectionMat := projectionMat s;
     page := page s;
     canvasWidth := canvasWidth s;
     canvasHeight := canvasHeight s;
     hostContext := hostContext s;
     offsetWidth := offsetWidth s;
     offsetHeight := offsetHeight s;
     devicePixelRatio := devicePixelRatio s;
     displaysPending := displaysPending s;
     presentRequests := presentRequests s;
     exitRequests := exitRequests s;
     scheduled := v;
     nextButton := nextButton s;
     trace := trace s |}.

Definition set_nextButton (v : nat) (s : Shell) : Shell :=
  {| vrDisplay := vrDisplay s;
     frameData := frameData s;
     poseMat := poseMat s;
     viewMat := viewMat s;
     vrPresentButton := vrPresentButton s;
     projectionMat := projectionMat s;
     page := page s;
     canvasWidth := canvasWidth s;
     canvasHeight := canvasHeight s;
     hostContext := hostContext s;
     offsetWidth := offsetWidth s;
     offsetHeight := offsetHeight s;
     devicePixelRatio := devicePixelRatio s;
     displaysPending := displaysPending s;
     presentRequests := presentRequests s;
     exitRequests := exitRequests s;
     scheduled := scheduled s;
     nextButton := v;
     trace := trace s |}.

Definition set_trace (v : list ScriptCall) (s : Shell) : Shell :=
  {| vrDisplay := vrDisplay s;
     frameData := frameData s;
     poseMat := poseMat s;
     viewMat := viewMat s;
     vrPresentButton := vrPresentButton s;
     projectionMat := projectionMat s;
     page := page s;
     canvasWidth := canvasWidth s;
     canvasHeight := canvasHeight s;
     hostContext := hostContext s;
     offsetWidth := offsetWidth s;
     offsetHeight := offsetHeight s;
     devicePixelRatio := devicePixelRatio s;
     displaysPending := displaysPending s;
     presentRequests := presentRequests s;
     exitRequests := exitRequests s;
     scheduled := scheduled s;
     nextButton := nextButton s;
     trace := v |}.

Definition Script (A : Type) : Type := State Shell A.

(** Running a piece of the script on a state of the page. *)
Definition perform {A} (m : Script A) (s : Shell) : Shell := snd (m s).

Definition emit (c : ScriptCall) : Script unit :=
  modify (fun s => set_trace (trace s ++ [c]) s).

(** A call into the renderer: it runs on the page, and the calls it makes
    on the context enter the trace. *)
Definition callPage (f : World -> World) : Script unit :=
  modify (fun s =>
    match page s with
    | Some w =>
        set_trace (trace s ++ (context <$> emitted w (f w))) (set_page (Some (f w)) s)
    | None => s
    end).

(** [new Panorama(gl)] on the context [g] that [getContext] returned. *)
Definition newPanorama (g : WebGL) : Script unit :=
  modify (fun s =>
    set_trace (trace s ++ (context <$> emittedGL g (gl (start g))))
      (set_page (Some (start g)) s)).

Definition window_raf (callback : Handler) : Script unit :=
  emit (window_requestAnimationFrame callback);;
  modify (fun s => set_scheduled (S (scheduled s)) s).

Definition display_raf (callback : Handler) : Script unit :=
  emit (display_requestAnimationFrame callback);;
  modify (fun s => set_scheduled (S (scheduled s)) s).

Definition VRSamplesUtil_addButton (label key icon : string) (onclick : Handler)
  : Script Button := fun s =>
  let b := ButtonElement (nextButton s) in
  (b, set_trace (trace s ++ [addButton label key icon onclick b])
        (set_nextButton (S (nextButton s)) s)).

(** [onResize()]. *)
Definition onResize : Script unit :=
  modify (fun s =>
    set_canvasWidth (toUnsignedLong (offsetWidth s * devicePixelRatio s)%num) s);;
  modify (fun s =>
    set_canvasHeight (toUnsignedLong (offsetHeight s * devicePixelRatio s)%num) s).

(** [init()].  The result tells whether it ran to its end: when
    [getContext] returns null, [gl.enable] throws and the rest is skipped. *)
Definition init : Script bool :=
  emit (getContext "webgl" false false true);;
  ctx ← gets hostContext;
  match ctx with
  | None => mret false
  | Some g =>
      emit (enable DEPTH_TEST);;
      emit (enable CULL_FACE);;
      newPanorama g;;
      callPage (exec (setImage "media/textures/kla_office_1.jpg"));;
      onResize;;
      window_raf Handler_onAnimationFrame;;
      mret true
  end.

(** [onVRRequestPresent()] and the two callbacks of its promise.  With no
    display the call on [vrDisplay] throws before any effect. *)
Definition onVRRequestPresent : Script unit :=
  d ← gets vrDisplay;
  match d with
  | None => mret tt
  | Some _ =>
      emit display_requestPresent;;
      modify (fun s => set_presentRequests (S (presentRequests s)) s)
  end.

Definition onRequestPresentFulfilled : Script unit :=
  b ← gets vrPresentButton;
  emit (removeButton b);;
  b' ← VRSamplesUtil_addButton "Exit VR" "E" "media/icons/cardboard64.png"
         Handler_onVRExitPresent;
  modify (set_vrPresentButton (Some b')).

(** [err && err.message]: an error object with a non-empty message. *)
Definition truthyMessage (err : PresentError) : option string :=
  match err with
  | Some (Some m) => if decide (m = "") then None else Some m
  | _ => None
  end.

Definition onRequestPresentRejected (err : PresentError) : Script unit :=
  let errMsg := "requestPresent failed." in
  let errMsg :=
    match truthyMessage err with
    | Some m => errMsg +:+ "<br/>" +:+ m
    | None => errMsg
    end in
  emit (addError errMsg (Some 2000)).

(** [onVRExitPresent()] and the two callbacks of its promise. *)
Definition onVRExitPresent : Script unit :=
  d ← gets vrDisplay;
  match d with
  | None => mret tt
  | Some d =>
      if isPresenting d then
        emit display_exitPresent;;
        modify (fun s => set_exitRequests (S (exitRequests s)) s)
      else mret tt
  end.

Definition onExitPresentFulfilled : Script unit :=
  b ← gets vrPresentButton;
  emit (removeButton b);;
  b' ← VRSamplesUtil_addButton "Enter VR" "E" "media/icons/cardboard64.png"
         Handler_onVRRequestPresent;
  modify (set_vrPresentButton (Some b')).

Definition onExitPresentRejected : Script unit :=
  emit (addError "exitPresent failed." (Some 2000)).

(** [onVRPresentChange()]. *)
Definition onVRPresentChange : Script unit :=
  onResize;;
  b ← gets vrPresentButton;
  emit (removeButton b);;
  d ← gets vrDisplay;
  match d with
  | None => mret tt
  | Some d =>
      b' ← (if isPresenting d
            then VRSamplesUtil_addButton "Exit VR" "E" "media/icons/cardboard64.png"
                   Handler_onVRExitPresent
            else VRSamplesUtil_addButton "Enter VR" "E" "media/icons/cardboard64.png"
                   Handler_onVRRequestPresent);
      modify (set_vrPresentButton (Some b'))
  end.

(** [getPoseMatrix(out, pose)]: the content of [out] after the call.  The
    orientation is handed to [mat4.fromQuat] unguarded; reading the
    components of [null] throws before [out] is written ([None]). *)
Definition getPoseMatrix (pose : FrameData) : option Mat4 :=
  match orientation pose with
  | Some q => Some (mat4_invert (mat4_fromQuat q))
  | None => None
  end.

(** [onAnimationFrame(t)]; [fd] is what the display delivers if the frame
    asks for it.  With a null [frameData], [getFrameData] throws, and with a
    null orientation [getPoseMatrix] throws: the rest of the frame is
    skipped. *)
Definition onAnimationFrame (fd : FrameData) : Script unit :=
  p ← gets page;
  match p with
  | None => mret tt
  | Some _ =>
      emit (clear (Z.lor COLOR_BUFFER_BIT DEPTH_BUFFER_BIT));;
      d ← gets vrDisplay;
      if (match d with Some d => isPresenting d | None => false end) then
        display_raf Handler_onAnimationFrame;;
        emit display_getFrameData;;
        f ← gets frameData;
        match f with
        | None => mret tt
        | Some _ =>
            modify (set_frameData (Some (Some fd)));;
            match getPoseMatrix fd with
            | None => mret tt
            | Some out =>
                modify (set_viewMat out);;
                w ← gets canvasWidth; h ← gets canvasHeight;
                emit (viewport (ofZ 0) (ofZ 0) (w * decimal 5 1)%num h);;
                V ← gets viewMat;
                callPage (exec (render (leftProjectionMatrix fd) V));;
                emit (viewport (w * decimal 5 1)%num (ofZ 0) (w * decimal 5 1)%num h);;
                callPage (exec (render (rightProjectionMatrix fd) V));;
                emit display_submitFrame
            end
        end
      else
        window_raf Handler_onAnimationFrame;;
        w ← gets canvasWidth; h ← gets canvasHeight;
        emit (viewport (ofZ 0) (ofZ 0) w h);;
        modify (set_projectionMat
          (mat4_perspective (Math_PI * decimal 4 1)%num (w / h)%num
             (decimal 1 1) (ofZ 1024)));;
        P ← gets projectionMat;
        callPage (exec (render P mat4_create))
  end.

(** The two callbacks of [navigator.getVRDisplays()]. *)
Definition onDisplays (displays : list VRDisplay) : Script unit :=
  match last displays with
  | Some d =>
      modify (set_vrDisplay
        (Some {| displayId := displayId d; isPresenting := isPresenting d;
                 depthNear := Some (decimal 1 1); depthFar := Some (ofZ 1024) |}));;
      ok ← init;
      if ok : bool then
        b ← VRSamplesUtil_addButton "Enter VR" "E" "media/icons/cardboard64.png"
              Handler_onVRRequestPresent;
        modify (set_vrPresentButton (Some b));;
        emit (addEventListener "vrdisplaypresentchange" Handler_onVRPresentChange)
      else mret tt
  | None =>
      ok ← init;
      if ok : bool then emit (addInfo "WebVR supported, but no VRDisplays found.")
      else mret tt
  end.

Definition onDisplaysRejected : Script unit :=
  emit (addError "Error initializing WebVR!" None).

(** The host at the time the script is loaded. *)
Record Host := {
  hasGetVRDisplays : bool;          (* [navigator.getVRDisplays] exists *)
  webglContext : option WebGL;      (* [None]: the canvas has no WebGL *)
  canvasSize : num * num;           (* [width], [height] of the canvas *)
  canvasLayout : num * num;         (* [offsetWidth], [offsetHeight] *)
  pixelRatio : num;
}.

(** The page once the script's top level has run. *)
Definition boot (h : Host) : Shell :=
  let s :=
    {| vrDisplay := None; frameData := None;
       poseMat := mat4_create; viewMat := mat4_create;
       vrPresentButton := None; projectionMat := mat4_create;
       page := None;
       canvasWidth := fst (canvasSize h); canvasHeight := snd (canvasSize h);
       hostContext := webglContext h;
       offsetWidth := fst (canvasLayout h); offsetHeight := snd (canvasLayout h);
       devicePixelRatio := pixelRatio h;
       displaysPending := false; presentRequests := 0; exitRequests := 0;
       scheduled := 0; nextButton := 0; trace := [] |} in
  if hasGetVRDisplays h then
    perform (modify (set_frameData (Some None));;
             emit navigator_getVRDisplays;;
             modify (set_displaysPending true)) s
  else
    perform (ok ← init;
             if ok : bool
             then emit (addError "Your browser does not support WebVR." None)
             else mret tt) s.

(** What happens to the page afterwards: the host settles a promise, runs a
    scheduled animation callback, dispatches a click on a present button or
    the display's [vrdisplaypresentchange], loads or fails to load an image
    of the renderer, or changes what the script only reads (whether the
    display presents, the layout).  A callback runs only if the script has
    handed it to the host. *)
Inductive ScriptEvent :=
| DisplaysFulfilled (displays : list VRDisplay)
| DisplaysRejected
| AnimationFrame (fd : FrameData)
| ClickEnterVR
| ClickExitVR
| PresentChange
| RequestPresentFulfilled
| RequestPresentRejected (err : PresentError)
| ExitPresentFulfilled
| ExitPresentRejected
| ImageLoad (k : nat)
| ImageError (k : nat) (ev : ErrorEvent)
| HostPresenting (b : bool)
| HostLayout (offsetWidth offsetHeight pixelRatio : num).

Definition hasButton (s : Shell) : bool :=
  match vrPresentButton s with Some _ => true | None => false end.

Definition scriptStep (s : Shell) (e : ScriptEvent) : Shell :=
  match e with
  | DisplaysFulfilled displays =>
      if displaysPending s
      then perform (onDisplays displays) (set_displaysPending false s) else s
  | DisplaysRejected =>
      if displaysPending s
      then perform onDisplaysRejected (set_displaysPending false s) else s
  | AnimationFrame fd =>
      match scheduled s with
      | S n => perform (onAnimationFrame fd) (set_scheduled n s)
      | O => s
      end
  | ClickEnterVR => if hasButton s then perform onVRRequestPresent s else s
  | ClickExitVR => if hasButton s then perform onVRExitPresent s else s
  | PresentChange => if hasButton s then perform onVRPresentChange s else s
  | RequestPresentFulfilled =>
      match presentRequests s with
      | S n => perform onRequestPresentFulfilled (set_presentRequests n s)
      | O => s
      end
  | RequestPresentRejected err =>
      match presentRequests s with
      | S n => perform (onRequestPresentRejected err) (set_presentRequests n s)
      | O => s
      end
  | ExitPresentFulfilled =>
      match exitRequests s with
      | S n => perform onExitPresentFulfilled (set_exitRequests n s)
      | O => s
      end
  | ExitPresentRejected =>
      match exitRequests s with
      | S n => perform onExitPresentRejected (set_exitRequests n s)
      | O => s
      end
  | ImageLoad k => perform (callPage (fun w => step w (FireLoad k))) s
  | ImageError k ev => perform (callPage (fun w => step w (FireError k ev))) s
  | HostPresenting b =>
      match vrDisplay s with
      | Some d =>
          set_vrDisplay
            (Some {| displayId := displayId d; isPresenting := b;
                     depthNear := depthNear d; depthFar := depthFar d |}) s
      | None => s
      end
  | HostLayout ow oh dpr =>
      set_offsetWidth ow (set_offsetHeight oh (set_devicePixelRatio dpr s))
  end.

Definition scriptRun (s : Shell) (es : list ScriptEvent) : Shell :=
  foldl scriptStep s es.

(** The calls that the host saw between two states of the page. *)
Definition traced (s s' : Shell) : list ScriptCall :=
  drop (length (trace s)) (trace s').

Definition isContextDraw (c : ScriptCall) : bool :=
  match c with context (drawElements _ _ _ _) => true | _ => false end.

Definition isContextCall (c : ScriptCall) : bool :=
  match c with context _ => true | _ => false end.

Definition isButtonCall (c : ScriptCall) : bool :=
  match c with addButton _ _ _ _ _ | removeButton _ => true | _ => false end.

Definition isSchedule (c : ScriptCall) : bool :=
  match c with
  | window_requestAnimationFrame _ | display_requestAnimationFrame _ => true
  | _ => false
  end.

(** The calls of the renderer among the calls that the host saw. *)
Definition contextCalls (l : list ScriptCall) : list GLCall :=
  l ≫= fun c => match c with context c => [c] | _ => [] end.

(** The image that [init] asks for. *)
Definition officeImage : string := "media/textures/kla_office_1.jpg".

(** A history of calls on the button helper in which every button is removed
    before the next one is added; the second argument is the button that is
    currently shown. *)
Inductive alternates : list ScriptCall -> option Button -> Prop :=
| alternates_none : alternates [] None
| alternates_first label key icon onclick b :
    alternates [addButton label key icon onclick b] (Some b)
| alternates_next l b label key icon onclick b' :
    alternates l (Some b) ->
    alternates (l ++ [removeButton (Some b); addButton label key icon onclick b'])
      (Some b').

(** The events of the renderer other than a [setImage] call. *)
Definition notSetImage (e : Event) : Prop :=
  match e with CallSetImage _ => False | _ => True end.

(** What every state of the page keeps once the script has been loaded on
    the host [h]. *)
Record scriptInvariant (h : Host) (s : Shell) : Prop := {
  si_context : hostContext s = webglContext h;
  si_page : forall w, page s = Some w ->
    exists g es,
      webglContext h = Some g /\
      w = run (start g) (CallSetImage officeImage :: es) /\
      Forall notSetImage es /\
      calls (gl w) = calls g ++ contextCalls (trace s);
  si_no_page : page s = None -> contextCalls (trace s) = [];
  si_scheduled : scheduled s = match page s with Some _ => 1%nat | None => 0%nat end;
  si_pending : displaysPending s = true ->
    page s = None /\ vrDisplay s = None /\ hasGetVRDisplays h = true;
  si_display : is_Some (vrDisplay s) -> hasGetVRDisplays h = true;
  si_frameData : hasGetVRDisplays h = true -> is_Some (frameData s);
  si_button : is_Some (vrPresentButton s) ->
    is_Some (vrDisplay s) /\ is_Some (page s);
  si_requests : (0 < presentRequests s + exitRequests s)%nat ->
    is_Some (vrPresentButton s);
  si_buttons : alternates (filter isButtonCall (trace s)) (vrPresentButton s);
}.

(** [vrDisplay && vrDisplay.isPresenting]. *)
Definition presenting (s : Shell) : bool :=
  match vrDisplay s with Some d => isPresenting d | None => false end.

(** The projection of the flat view for the current canvas. *)
Definition flatProjection (s : Shell) : Mat4 :=
  mat4_perspective (Math_PI * decimal 4 1)%num
    (canvasWidth s / canvasHeight s)%num (decimal 1 1) (ofZ 1024).

(** The index array read three at a time, as [drawElements] with
    [TRIANGLES] reads it. *)
Fixpoint triangles (l : list Z) : list (Z * Z * Z) :=
  match l with
  | a :: b :: c :: l' => (a, b, c) :: triangles l'
  | _ => []
  end.

(** A host for the examples: a canvas of the default size laid out at
    800x600 with pixel ratio 1, one headset, and a frame of it. *)
Definition desktopHost (webVR : bool) (ctx : option WebGL) : Host :=
  {| hasGetVRDisplays := webVR; webglContext := ctx;
     canvasSize := (ofZ 300, ofZ 150); canvasLayout := (ofZ 800, ofZ 600);
     pixelRatio := ofZ 1 |}.

Definition headset : VRDisplay :=
  {| displayId := 0; isPresenting := false; depthNear := None; depthFar := None |}.

Definition sampleFrame : FrameData :=
  {| leftProjectionMatrix := mat4_create; rightProjectionMatrix := mat4_create;
     orientation := Some (ofZ <$> [0; 0; 0; 1]) |}.

(** A frame of a display that cannot report its orientation. *)
Definition blindFrame : FrameData :=
  {| leftProjectionMatrix := mat4_create; rightProjectionMatrix := mat4_create;
     orientation := None |}.

(** * Properties *)

(** ** Mesh *)

Lemma length_bind_const {A B} (f : A -> list B) (l : list A) (n : nat) :
  (forall x, x ∈ l -> length (f x) = n) -> length (l ≫= f) = (length l * n)%nat.
Proof.
  induction l as [|a l IH]; intros Hf; [reflexivity|].
  rewrite bind_cons, length_app, IH, (Hf a); [simpl; lia|left|].
  intros x Hx. apply Hf. now right.
Qed.

Lemma panoVerts_vertex (r : num) (L N : Z) :
  panoVerts r L N =
  i ← seqZ 0 (L + 1); j ← seqZ 0 (N + 1); vertex r L N i j.
Proof. reflexivity. Qed.

Lemma length_panoVerts (r : num) (L N : Z) :
  0 <= L + 1 -> 0 <= N + 1 ->
  Z.of_nat (length (panoVerts r L N)) = 5 * ((L + 1) * (N + 1)).
Proof.
  intros HL HN. rewrite panoVerts_vertex.
  rewrite (length_bind_const _ _ (Z.to_nat (N + 1) * 5)).
  - rewrite length_seqZ, !Nat2Z.inj_mul, !Z2Nat.id by lia. simpl. ring.
  - intros i _. rewrite (length_bind_const _ _ 5).
    + now rewrite length_seqZ.
    + reflexivity.
Qed.

Lemma lookup_bind_const {A B} (f : A -> list B) (l : list A) (n k r : nat) (x : A) :
  (forall y, length (f y) = n) -> l !! k = Some x -> (r < n)%nat ->
  (l ≫= f) !! (k * n + r)%nat = f x !! r.
Proof.
  intros Hf. revert k.
  induction l as [|a l IH]; intros [|k] Hk Hr; try discriminate Hk.
  - injection Hk as ->. rewrite bind_cons. cbn [Nat.mul Nat.add].
    apply lookup_app_l. rewrite Hf. exact Hr.
  - rewrite bind_cons, lookup_app_r by (rewrite Hf; lia).
    rewrite Hf. replace (S k * n + r - n)%nat with (k * n + r)%nat by lia.
    now apply IH.
Qed.

(** Vertex number [i * (N + 1) + j] of the array is the one pushed for the
    grid point [(i, j)]. *)
Lemma vertexAt_panoVerts (r : num) (L N i j : Z) :
  0 <= i <= L -> 0 <= j <= N ->
  vertexAt (panoVerts r L N) (Z.to_nat (i * (N + 1) + j)) = vertex r L N i j.
Proof.
  intros Hi Hj. unfold vertexAt, floatsPerVertex. apply list_eq. intros s.
  destruct (decide (s < 5)%nat) as [Hs|Hs].
  - rewrite lookup_take_lt, lookup_drop by assumption.
    rewrite panoVerts_vertex.
    replace (Z.to_nat (i * (N + 1) + j) * 5 + s)%nat
      with (Z.to_nat i * (Z.to_nat (N + 1) * 5) + (Z.to_nat j * 5 + s))%nat by nia.
    rewrite (lookup_bind_const _ _ _ _ _ i).
    + apply (lookup_bind_const _ _ 5 _ _ j); [reflexivity| |exact Hs].
      apply lookup_seqZ. split; lia.
    + intros y. rewrite (length_bind_const _ _ 5); [|reflexivity].
      now rewrite length_seqZ.
    + apply lookup_seqZ. split; lia.
    + nia.
  - rewrite lookup_take_ge by lia. symmetry. apply lookup_ge_None_2.
    cbn [vertex length]. lia.
Qed.

Lemma length_panoIndices (L N : Z) :
  0 <= L -> 0 <= N -> Z.of_nat (length (panoIndices L N)) = 6 * L * N.
Proof.
  intros HL HN. unfold panoIndices.
  rewrite (length_bind_const _ _ (Z.to_nat N * 6)).
  - rewrite length_seqZ, !Nat2Z.inj_mul, !Z2Nat.id by lia. simpl. ring.
  - intros i _. rewrite (length_bind_const _ _ 6).
    + now rewrite length_seqZ.
    + reflexivity.
Qed.

Lemma elem_of_panoIndices (L N k : Z) :
  k ∈ panoIndices L N ->
  exists i j, 0 <= i < L /\ 0 <= j < N /\ k ∈ quad N i j.
Proof.
  unfold panoIndices. intros Hk.
  apply list_elem_of_bind in Hk as (i & Hk & Hi).
  apply list_elem_of_bind in Hk as (j & Hk & Hj).
  apply elem_of_seqZ in Hi, Hj. exists i, j. repeat split; try lia. exact Hk.
Qed.

Lemma quad_bounds (N i j k : Z) :
  0 <= i -> 0 <= j < N -> k ∈ quad N i j ->
  i * (N + 1) <= k <= (i + 1) * (N + 1) + N.
Proof.
  intros Hi Hj Hk. cbv [quad] in Hk.
  repeat (apply elem_of_cons in Hk as [->|Hk]; [lia|]).
  now apply elem_of_nil in Hk.
Qed.

Lemma panoIndices_bounds (L N k : Z) :
  k ∈ panoIndices L N -> 0 <= k < (L + 1) * (N + 1).
Proof.
  intros Hk. apply elem_of_panoIndices in Hk as (i & j & Hi & Hj & Hk).
  apply quad_bounds in Hk; nia.
Qed.

(** C1.  For all [L >= 1] and [N >= 1] the mesh built by the two loops has
    [(L+1)*(N+1)] vertices (five Numbers each) and [6*L*N] indices, and
    every index is a natural number below the vertex count. *)
Theorem mesh_counts (r : num) (L N : Z) :
  1 <= L -> 1 <= N ->
  Z.of_nat (length (panoVerts r L N)) = 5 * ((L + 1) * (N + 1)) /\
  vertexCount (panoVerts r L N) = (L + 1) * (N + 1) /\
  Z.of_nat (length (panoIndices L N)) = 6 * L * N /\
  Forall (fun k => 0 <= k < vertexCount (panoVerts r L N)) (panoIndices L N).
Proof.
  intros HL HN.
  assert (Hv : vertexCount (panoVerts r L N) = (L + 1) * (N + 1)).
  { unfold vertexCount. rewrite length_panoVerts by lia.
    change (Z.of_nat floatsPerVertex) with 5.
    rewrite Z.mul_comm. apply Z.div_mul. lia. }
  split; [apply length_panoVerts; lia|].
  split; [exact Hv|].
  split; [apply length_panoIndices; lia|].
  rewrite Hv. apply Forall_forall. intros k Hk. now apply panoIndices_bounds.
Qed.

Example panoIndices_2_2 :
  panoIndices 2 2 =
  [ 0; 3; 1; 3; 4; 1;   1; 4; 2; 4; 5; 2;
    3; 6; 4; 6; 7; 4;   4; 7; 5; 7; 8; 5 ].
Proof. reflexivity. Qed.

Example panoIndices_last_quad :
  quad lonSegments 39 39 = [1638; 1679; 1639; 1679; 1680; 1639].
Proof. reflexivity. Qed.

Example ToUint16_wraps : ToUint16 65536 = 0 /\ ToUint16 1680 = 1680.
Proof. split; reflexivity. Qed.

Lemma Uint16Array_of_id (a : list Z) :
  Forall (fun k => 0 <= k < 65536) a -> Uint16Array_of a = a.
Proof.
  unfold Uint16Array_of, ToUint16. induction 1 as [|k a Hk _ IH]; [reflexivity|].
  rewrite fmap_cons, IH. f_equal. now apply Z.mod_small.
Qed.

(** ** The context's log *)

Lemma emittedGL_app (g g' : WebGL) (l : list GLCall) :
  calls g' = calls g ++ l -> emittedGL g g' = l.
Proof. intros E. unfold emittedGL. rewrite E. apply drop_app_length. Qed.

Lemma emitted_app (w w' : World) (l : list GLCall) :
  calls (gl w') = calls (gl w) ++ l -> emitted w w' = l.
Proof. apply emittedGL_app. Qed.

Lemma emitted_same (w : World) : emitted w w = [].
Proof. apply emitted_app. now rewrite app_nil_r. Qed.

(** Symbolic execution of the monadic code on a page given by its fields. *)
Ltac run_js :=
  lazy [exec render onload onerror setImage settle console_error
    set_imgElement liftGL use uniform gl_createTexture gl_createBuffer gl_bindBuffer
    gl_bufferData gl_bindTexture gl_texImage2D gl_texParameteri
    gl_uniformMatrix4fv gl_uniform1i gl_enableVertexAttribArray
    gl_vertexAttribPointer gl_activeTexture gl_drawElements
    modify gets mbind mret State_bind State_ret
    fst snd gl self loads console nextObject arrayBuffer elementArrayBuffer
    texture2D bufferStore textureStore calls log allocate setBufferBinding
    setTextureBinding storeTexture storeBuffer bufferBinding texture glProgram
    vertBuffer indexBuffer indexCount imgElement textureId bufferId
    decide decide_rel GLenum_eq_dec GLenum_rec GLenum_rect sumbool_rec sumbool_rect].

Ltac destruct_world w :=
  let g := fresh "g" in let p := fresh "p" in
  destruct w as [g p ? ?]; destruct g, p.

(** ** [render] *)

Lemma render_idle (w : World) (P V : Mat4) :
  imgElement (self w) = None -> render P V w = (tt, w).
Proof. destruct_world w. cbn [self imgElement]. intros ->. reflexivity. Qed.

Lemma render_ready (w : World) (P V : Mat4) (img : Image) :
  imgElement (self w) = Some img ->
  exec (render P V) w =
  {| gl :=
       {| nextObject := nextObject (gl w);
          arrayBuffer := Some (vertBuffer (self w));
          elementArrayBuffer := Some (indexBuffer (self w));
          texture2D := Some (texture (self w));
          bufferStore := bufferStore (gl w);
          textureStore := textureStore (gl w);
          calls := calls (gl w) ++
            [ program wglu_use;
              uniformMatrix4fv (UniformOf "projectionMat") false P;
              uniformMatrix4fv (UniformOf "modelViewMat") false V;
              bindBuffer ARRAY_BUFFER (vertBuffer (self w));
              bindBuffer ELEMENT_ARRAY_BUFFER (indexBuffer (self w));
              enableVertexAttribArray (attrib (glProgram (self w)) !!! "position");
              enableVertexAttribArray (attrib (glProgram (self w)) !!! "texCoord");
              vertexAttribPointer (attrib (glProgram (self w)) !!! "position")
                3 FLOAT false 20 0;
              vertexAttribPointer (attrib (glProgram (self w)) !!! "texCoord")
                2 FLOAT false 20 12;
              activeTexture TEXTURE0;
              uniform1i (UniformOf "diffuse") 0;
              bindTexture TEXTURE_2D (texture (self w));
              drawElements TRIANGLES (indexCount (self w)) UNSIGNED_SHORT 0 ] |};
     self := self w; loads := loads w; console := console w |}.
Proof.
  destruct_world w. cbn [self imgElement]. intros ->. run_js.
  repeat rewrite <- app_assoc. reflexivity.
Qed.

(** ** The listeners and [setImage] *)

Lemma setImage_world (w : World) (url : string) :
  exec (setImage url) w =
  {| gl := gl w; self := self w;
     loads := loads w ++
       [({| imageId := length (loads w); crossOrigin := "anonymous"; src := url |},
         Pending)];
     console := console w |}.
Proof. reflexivity. Qed.

Lemma onload_world (w : World) (k : nat) (img : Image) :
  exec (onload k img) w =
  {| gl :=
       {| nextObject := nextObject (gl w);
          arrayBuffer := arrayBuffer (gl w);
          elementArrayBuffer := elementArrayBuffer (gl w);
          texture2D := Some (texture (self w));
          bufferStore := bufferStore (gl w);
          textureStore := <[textureId (texture (self w)) := img]> (textureStore (gl w));
          calls := calls (gl w) ++
            [ bindTexture TEXTURE_2D (texture (self w));
              texImage2D TEXTURE_2D 0 RGB RGB UNSIGNED_BYTE img;
              texParameteri TEXTURE_2D TEXTURE_MAG_FILTER LINEAR;
              texParameteri TEXTURE_2D TEXTURE_MIN_FILTER LINEAR;
              texParameteri TEXTURE_2D TEXTURE_WRAP_S CLAMP_TO_EDGE;
              texParameteri TEXTURE_2D TEXTURE_WRAP_T CLAMP_TO_EDGE ] |};
     self :=
       {| texture := texture (self w);
          glProgram := glProgram (self w);
          vertBuffer := vertBuffer (self w);
          indexBuffer := indexBuffer (self w);
          indexCount := indexCount (self w);
          imgElement := Some img |};
     loads := alter (fun '(i, p) => (i, resolve (Some img) p)) k (loads w);
     console := console w |}.
Proof.
  destruct_world w. run_js. repeat rewrite <- app_assoc. reflexivity.
Qed.

Lemma onerror_world (w : World) (k : nat) (ev : ErrorEvent) :
  exec (onerror k ev) w =
  {| gl := gl w; self := self w;
     loads := alter (fun '(i, p) => (i, reject (message ev) p)) k (loads w);
     console := console w ++ [message ev] |}.
Proof. reflexivity. Qed.

(** ** The constructor *)

Lemma start_world (g : WebGL) :
  start g =
  let n := nextObject g in
  {| gl :=
       {| nextObject := S (S (S n));
          arrayBuffer := Some (BufferObject (S n));
          elementArrayBuffer := Some (BufferObject (S (S n)));
          texture2D := texture2D g;
          bufferStore :=
            <[S (S n) := Uint16Array (Uint16Array_of (panoIndices latSegments lonSegments))]>
              (<[S n := Float32Array (panoVerts radius latSegments lonSegments)]>
                 (bufferStore g));
          textureStore := textureStore g;
          calls := calls g ++
            [ createTexture (TextureObject n);
              program wglu_new;
              program (wglu_attachShaderSource panoVS VERTEX_SHADER);
              program (wglu_attachShaderSource panoFS FRAGMENT_SHADER);
              program (wglu_bindAttribLocation [("position", 0); ("texCoord", 1)]);
              program wglu_link;
              createBuffer (BufferObject (S n));
              bindBuffer ARRAY_BUFFER (BufferObject (S n));
              bufferData ARRAY_BUFFER
                (Float32Array (panoVerts radius latSegments lonSegments)) STATIC_DRAW;
              createBuffer (BufferObject (S (S n)));
              bindBuffer ELEMENT_ARRAY_BUFFER (BufferObject (S (S n)));
              bufferData ELEMENT_ARRAY_BUFFER
                (Uint16Array (Uint16Array_of (panoIndices latSegments lonSegments)))
                STATIC_DRAW ] |};
     self :=
       {| texture := TextureObject n;
          glProgram :=
            {| shaderSources := [(panoVS, VERTEX_SHADER); (panoFS, FRAGMENT_SHADER)];
               attrib := list_to_map [("position", 0); ("texCoord", 1)] ∪ ∅;
               linked := true |};
          vertBuffer := BufferObject (S n);
          indexBuffer := BufferObject (S (S n));
          indexCount := Z.of_nat (length (panoIndices latSegments lonSegments));
          imgElement := None |};
     loads := []; console := [] |}.
Proof.
  destruct g.
  lazy [start Panorama_new WGLUProgram_new attachShaderSource bindAttribLocation
    link shaderSources attrib linked].
  run_js. repeat rewrite <- app_assoc. reflexivity.
Qed.

(** ** Pages reached from the constructor *)

Lemma run_snoc (w : World) (es : list Event) (e : Event) :
  run w (es ++ [e]) = step (run w es) e.
Proof. unfold run. now rewrite foldl_app. Qed.

Lemma filter_isCreateTexture_app (l l' : list GLCall) :
  filter isCreateTexture l = [] -> filter isCreateTexture l' = [] ->
  filter isCreateTexture (l ++ l') = [].
Proof. intros E E'. now rewrite filter_app, E, E'. Qed.

Lemma invariant_start (g : WebGL) : invariant (start g) (start g).
Proof.
  split; try reflexivity.
  - exists []. now rewrite app_nil_r.
  - rewrite start_world. cbn [self imgElement]. discriminate.
  - rewrite start_world. cbn [loads]. intros k img v Hk.
    now rewrite lookup_nil in Hk.
Qed.

Lemma invariant_setImage (w0 w : World) (url : string) :
  invariant w0 w -> invariant w0 (exec (setImage url) w).
Proof.
  intros []. rewrite setImage_world. split; cbn [gl self loads]; try assumption.
  intros k img v Hk. apply lookup_app_Some in Hk as [Hk|[_ Hk]]; [eauto|].
  apply list_lookup_singleton_Some in Hk as [_ Hk]. discriminate.
Qed.

Lemma invariant_onload (w0 w : World) (k : nat) (img : Image) :
  invariant w0 w -> invariant w0 (exec (onload k img) w).
Proof.
  intros []. rewrite onload_world.
  split; cbn [gl self loads texture glProgram vertBuffer indexBuffer indexCount
              imgElement nextObject bufferStore textureStore calls]; try assumption.
  - destruct inv_calls0 as (l & -> & Hl). eexists. rewrite <- app_assoc.
    split; [reflexivity|]. now apply filter_isCreateTexture_app.
  - intros t Ht. rewrite inv_texture0, lookup_insert_ne by congruence. auto.
  - intros img' [= <-]. now rewrite inv_texture0, lookup_insert_eq.
  - reflexivity.
Qed.

Lemma invariant_onerror (w0 w : World) (k : nat) (ev : ErrorEvent) :
  invariant w0 w -> invariant w0 (exec (onerror k ev) w).
Proof.
  intros []. rewrite onerror_world. split; cbn [gl self loads]; try assumption.
  intros j img v Hj. destruct (decide (k = j)) as [->|Hkj].
  - rewrite list_lookup_alter_eq in Hj.
    destruct (loads w !! j) as [[i [| |]]|] eqn:E; try discriminate; eauto.
  - rewrite list_lookup_alter_ne in Hj by assumption. eauto.
Qed.

Lemma invariant_render (w0 w : World) (P V : Mat4) :
  invariant w0 w -> invariant w0 (exec (render P V) w).
Proof.
  intros Hw. destruct (imgElement (self w)) as [img|] eqn:E.
  - destruct Hw. rewrite (render_ready _ _ _ _ E).
    split; cbn [gl self loads nextObject bufferStore textureStore calls];
      try assumption.
    destruct inv_calls0 as (l & -> & Hl). eexists. rewrite <- app_assoc.
    split; [reflexivity|]. now apply filter_isCreateTexture_app.
  - unfold exec. now rewrite render_idle.
Qed.

Lemma invariant_step (w0 w : World) (e : Event) :
  invariant w0 w -> invariant w0 (step w e).
Proof.
  intros Hw. destruct e as [url|k|k ev|P V]; cbn [step].
  - now apply invariant_setImage.
  - destruct (loads w !! k) as [[img p]|]; [now apply invariant_onload|exact Hw].
  - destruct (loads w !! k); [now apply invariant_onerror|exact Hw].
  - now apply invariant_render.
Qed.

Lemma invariant_run (g : WebGL) (es : list Event) :
  invariant (start g) (run (start g) es).
Proof.
  induction es as [|e es IH] using rev_ind; [apply invariant_start|].
  rewrite run_snoc. now apply invariant_step.
Qed.

(** Without a [load] event the renderer stays without an image. *)
Lemma idle_step (w : World) (e : Event) :
  (forall k, e <> FireLoad k) ->
  imgElement (self w) = None -> imgElement (self (step w e)) = None.
Proof.
  intros He Hw. destruct e as [url|k|k ev|P V]; cbn [step].
  - exact Hw.
  - now destruct (He k).
  - now destruct (loads w !! k).
  - unfold exec. now rewrite render_idle.
Qed.

Lemma idle_run (g : WebGL) (es : list Event) :
  (forall k, FireLoad k ∉ es) -> imgElement (self (run (start g) es)) = None.
Proof.
  induction es as [|e es IH] using rev_ind; intros Hes.
  - now rewrite start_world.
  - rewrite run_snoc. apply idle_step.
    + intros k ->. apply (Hes k), elem_of_app. right. now left.
    + apply IH. intros k Hk. apply (Hes k), elem_of_app. now left.
Qed.

(** ** What one [render] call sends to the context *)

Lemma frame_idle (w : World) (P V : Mat4) :
  imgElement (self w) = None -> frame w P V = [].
Proof.
  intros E. unfold frame, exec. rewrite render_idle by assumption.
  apply emitted_same.
Qed.

Lemma frame_ready (w : World) (P V : Mat4) (img : Image) :
  imgElement (self w) = Some img ->
  frame w P V =
  [ program wglu_use;
    uniformMatrix4fv (UniformOf "projectionMat") false P;
    uniformMatrix4fv (UniformOf "modelViewMat") false V;
    bindBuffer ARRAY_BUFFER (vertBuffer (self w));
    bindBuffer ELEMENT_ARRAY_BUFFER (indexBuffer (self w));
    enableVertexAttribArray (attrib (glProgram (self w)) !!! "position");
    enableVertexAttribArray (attrib (glProgram (self w)) !!! "texCoord");
    vertexAttribPointer (attrib (glProgram (self w)) !!! "position") 3 FLOAT false 20 0;
    vertexAttribPointer (attrib (glProgram (self w)) !!! "texCoord") 2 FLOAT false 20 12;
    activeTexture TEXTURE0;
    uniform1i (UniformOf "diffuse") 0;
    bindTexture TEXTURE_2D (texture (self w));
    drawElements TRIANGLES (indexCount (self w)) UNSIGNED_SHORT 0 ].
Proof.
  intros E. unfold frame. apply emitted_app.
  now rewrite (render_ready _ _ _ _ E).
Qed.

Lemma render_self (w : World) (P V : Mat4) :
  self (exec (render P V) w) = self w /\
  loads (exec (render P V) w) = loads w /\
  console (exec (render P V) w) = console w /\
  bufferStore (gl (exec (render P V) w)) = bufferStore (gl w) /\
  textureStore (gl (exec (render P V) w)) = textureStore (gl w).
Proof.
  destruct (imgElement (self w)) as [img|] eqn:E.
  - now rewrite (render_ready _ _ _ _ E).
  - unfold exec. now rewrite render_idle.
Qed.

Lemma render_extends (w : World) (P V : Mat4) :
  calls (gl (exec (render P V) w)) = calls (gl w) ++ frame w P V.
Proof.
  destruct (imgElement (self w)) as [img|] eqn:E.
  - rewrite (frame_ready _ _ _ _ E). now rewrite (render_ready _ _ _ _ E).
  - rewrite frame_idle by assumption. unfold exec.
    rewrite render_idle by assumption. now rewrite app_nil_r.
Qed.

Lemma indexCount_start (g : WebGL) : indexCount (self (start g)) = 9600.
Proof.
  rewrite start_world. cbn [self indexCount].
  now rewrite length_panoIndices.
Qed.

Lemma attrib_start (g : WebGL) :
  attrib (glProgram (self (start g))) !!! "position" = 0 /\
  attrib (glProgram (self (start g))) !!! "texCoord" = 1.
Proof. rewrite start_world. split; reflexivity. Qed.

Lemma panoIndices_max (k : Z) :
  k ∈ panoIndices latSegments lonSegments -> 0 <= k <= 1680.
Proof. intros Hk. apply panoIndices_bounds in Hk. unfold latSegments, lonSegments in Hk. lia. Qed.

Lemma Uint16Array_of_panoIndices :
  Uint16Array_of (panoIndices latSegments lonSegments) =
  panoIndices latSegments lonSegments.
Proof.
  apply Uint16Array_of_id, Forall_forall. intros k Hk.
  apply panoIndices_max in Hk. lia.
Qed.

Lemma indexBuffer_start (g : WebGL) :
  bufferStore (gl (start g)) !! bufferId (indexBuffer (self (start g))) =
  Some (Uint16Array (panoIndices latSegments lonSegments)).
Proof.
  rewrite start_world. cbn [gl self bufferStore indexBuffer bufferId].
  now rewrite lookup_insert_eq, Uint16Array_of_panoIndices.
Qed.

(** The frame of a page that was reached from the constructor and holds an
    image. *)
Lemma frame_loaded (g : WebGL) (es : list Event) (P V : Mat4) (img : Image) :
  imgElement (self (run (start g) es)) = Some img ->
  frame (run (start g) es) P V =
  [ program wglu_use;
    uniformMatrix4fv (UniformOf "projectionMat") false P;
    uniformMatrix4fv (UniformOf "modelViewMat") false V;
    bindBuffer ARRAY_BUFFER (vertBuffer (self (start g)));
    bindBuffer ELEMENT_ARRAY_BUFFER (indexBuffer (self (start g)));
    enableVertexAttribArray 0;
    enableVertexAttribArray 1;
    vertexAttribPointer 0 3 FLOAT false 20 0;
    vertexAttribPointer 1 2 FLOAT false 20 12;
    activeTexture TEXTURE0;
    uniform1i (UniformOf "diffuse") 0;
    bindTexture TEXTURE_2D (texture (self (start g)));
    drawElements TRIANGLES 9600 UNSIGNED_SHORT 0 ].
Proof.
  intros E. rewrite (frame_ready _ _ _ _ E).
  destruct (invariant_run g es) as [-> -> -> -> -> _ _ _ _ _ _].
  destruct (attrib_start g) as [-> ->]. now rewrite indexCount_start.
Qed.

Lemma loaded_of_fulfilled (g : WebGL) (es : list Event) :
  (exists k img v, loads (run (start g) es) !! k = Some (img, Fulfilled v)) ->
  exists img, imgElement (self (run (start g) es)) = Some img.
Proof.
  intros (k & i & v & Hk).
  pose proof (inv_fulfilled _ _ (invariant_run g es) _ _ _ Hk) as Hr.
  unfold isReady in Hr. destruct (imgElement _) as [img|]; [eauto|discriminate].
Qed.

(** A [load] event on a pending image fulfils its promise with that image
    and makes the renderer ready. *)
Lemma load_event_fulfils (w : World) (k : nat) (img : Image) :
  loads w !! k = Some (img, Pending) ->
  loads (step w (FireLoad k)) !! k = Some (img, Fulfilled (Some img)) /\
  imgElement (self (step w (FireLoad k))) = Some img.
Proof.
  intros Hk. cbn [step]. rewrite Hk, onload_world. cbn [loads self imgElement].
  now rewrite list_lookup_alter_eq, Hk.
Qed.

(** ** [render] and the loads on the pages reached from the constructor *)

(** C2.  As long as no [load] event has fired, a [render] call with any two
    matrices returns at its guard: it completes, leaves the page as it is
    and sends nothing to the context, so no draw call is issued. *)
Theorem render_before_load (g : WebGL) (es : list Event) (P V : Mat4) :
  (forall k, FireLoad k ∉ es) ->
  render P V (run (start g) es) = (tt, run (start g) es) /\
  frame (run (start g) es) P V = [] /\
  drawCalls (frame (run (start g) es) P V) = [].
Proof.
  intros Hes. pose proof (idle_run g es Hes) as E.
  split; [now apply render_idle|].
  rewrite frame_idle by assumption. now split.
Qed.

(** C3.  Once the promise of a load has been fulfilled, every [render]
    call uploads exactly its own projection matrix and view matrix as the
    two matrix uniforms and then issues one [drawElements] call, the last
    call of the frame, over all 9600 = 6*40*40 indices that the constructor
    stored in the element buffer.  In particular two calls in a row with
    [Pl], [Pr] and one [V] upload [Pl], [V] and [Pr], [V] and issue one such
    draw call each, two in total. *)
Theorem render_after_load (g : WebGL) (es : list Event) :
  (exists k img v, loads (run (start g) es) !! k = Some (img, Fulfilled v)) ->
  let w := run (start g) es in
  let draw := drawElements TRIANGLES 9600 UNSIGNED_SHORT 0 in
  (forall P V,
     uniformUploads (frame w P V) =
       [ uniformMatrix4fv (UniformOf "projectionMat") false P;
         uniformMatrix4fv (UniformOf "modelViewMat") false V ] /\
     drawCalls (frame w P V) = [draw] /\
     last (frame w P V) = Some draw /\
     elementArrayBuffer (gl (exec (render P V) w)) = Some (indexBuffer (self w))) /\
  (bufferStore (gl w) !! bufferId (indexBuffer (self w)) =
     Some (Uint16Array (panoIndices latSegments lonSegments)) /\
   Z.of_nat (length (panoIndices latSegments lonSegments)) = 9600 /\
   indexCount (self w) = 9600) /\
  (forall Pl Pr V,
     let w1 := exec (render Pl V) w in
     let w2 := exec (render Pr V) w1 in
     uniformUploads (frame w Pl V) =
       [ uniformMatrix4fv (UniformOf "projectionMat") false Pl;
         uniformMatrix4fv (UniformOf "modelViewMat") false V ] /\
     uniformUploads (frame w1 Pr V) =
       [ uniformMatrix4fv (UniformOf "projectionMat") false Pr;
         uniformMatrix4fv (UniformOf "modelViewMat") false V ] /\
     drawCalls (frame w Pl V) = [draw] /\
     drawCalls (frame w1 Pr V) = [draw] /\
     drawCalls (emitted w w2) = [draw; draw]).
Proof.
  intros Hf w draw. subst w.
  destruct (loaded_of_fulfilled g es Hf) as [img E].
  assert (Hone : forall es' img' P V,
    imgElement (self (run (start g) es')) = Some img' ->
    uniformUploads (frame (run (start g) es') P V) =
      [ uniformMatrix4fv (UniformOf "projectionMat") false P;
        uniformMatrix4fv (UniformOf "modelViewMat") false V ] /\
    drawCalls (frame (run (start g) es') P V) = [draw] /\
    last (frame (run (start g) es') P V) = Some draw).
  { intros es' img' P V E'. rewrite (frame_loaded _ _ _ _ _ E').
    repeat split; reflexivity. }
  split; [|split].
  - intros P V. destruct (Hone es img P V E) as (HU & HD & HL).
    repeat split; try assumption.
    now rewrite (render_ready _ _ _ _ E).
  - destruct (invariant_run g es) as [_ _ _ Hib Hic _ Hbs _ _ _ _].
    rewrite Hbs, Hib, Hic. split; [apply indexBuffer_start|].
    split; [now rewrite length_panoIndices|apply indexCount_start].
  - intros Pl Pr V w1 w2.
    assert (E1 : imgElement (self (run (start g) (es ++ [CallRender Pl V]))) = Some img).
    { rewrite run_snoc. cbn [step]. now rewrite (proj1 (render_self _ _ _)). }
    assert (Hw1 : w1 = run (start g) (es ++ [CallRender Pl V])).
    { now rewrite run_snoc. }
    destruct (Hone es img Pl V E) as (HU & HD & _).
    destruct (Hone _ img Pr V E1) as (HU1 & HD1 & _). rewrite <- Hw1 in HU1, HD1.
    repeat split; try assumption.
    assert (Hw2 : emitted (run (start g) es) w2 =
                  frame (run (start g) es) Pl V ++ frame w1 Pr V).
    { apply emitted_app. unfold w2. rewrite render_extends. unfold w1 at 1.
      rewrite render_extends. now rewrite app_assoc. }
    rewrite Hw2. unfold drawCalls in *. now rewrite filter_app, HD, HD1.
Qed.

(** C5.  [render] assigns no field of the renderer: the instance (and the
    pending loads, the console, the content of every buffer and texture) is
    the same after the call, and repeating the call with the same matrices
    any number of times sends the same sequence of calls to the context
    each time. *)
Theorem render_pure (w : World) (P V : Mat4) :
  self (exec (render P V) w) = self w /\
  loads (exec (render P V) w) = loads w /\
  console (exec (render P V) w) = console w /\
  bufferStore (gl (exec (render P V) w)) = bufferStore (gl w) /\
  textureStore (gl (exec (render P V) w)) = textureStore (gl w) /\
  forall n, frame (Nat.iter n (exec (render P V)) w) P V = frame w P V.
Proof.
  destruct (render_self w P V) as (Hs & Hl & Hc & Hb & Ht).
  repeat split; try assumption.
  assert (Hiter : forall n, self (Nat.iter n (exec (render P V)) w) = self w).
  { induction n as [|n IH]; [reflexivity|].
    cbn [Nat.iter nat_rect]. now rewrite (proj1 (render_self _ _ _)). }
  intros n. specialize (Hiter n).
  destruct (imgElement (self w)) as [img|] eqn:E.
  - rewrite (frame_ready w _ _ _ E).
    rewrite (frame_ready _ _ _ img) by now rewrite Hiter.
    now rewrite Hiter.
  - rewrite (frame_idle w) by assumption.
    apply frame_idle. now rewrite Hiter.
Qed.

(** C8.  The constructor makes the one [createTexture] call of the page and
    keeps its result in the [texture] field; whatever happens afterwards,
    the field holds that object, no further [createTexture] call is made,
    the content of every other texture object is what it was before the
    constructor, and each [load] listener binds that object and uploads
    its image into it, so the new image replaces the content of the same
    object. *)
Theorem texture_allocated_once (g : WebGL) (es : list Event) :
  let w0 := start g in
  let w := run w0 es in
  filter isCreateTexture (emittedGL g (gl w0)) = [createTexture (texture (self w0))] /\
  filter isCreateTexture (emitted w0 w) = [] /\
  texture (self w) = texture (self w0) /\
  (forall t, t <> textureId (texture (self w0)) ->
     textureStore (gl w) !! t = textureStore g !! t) /\
  (forall k img p, loads w !! k = Some (img, p) ->
     let w' := step w (FireLoad k) in
     take 2 (emitted w w') =
       [ bindTexture TEXTURE_2D (texture (self w0));
         texImage2D TEXTURE_2D 0 RGB RGB UNSIGNED_BYTE img ] /\
     filter isCreateTexture (emitted w w') = [] /\
     textureStore (gl w') = <[textureId (texture (self w0)) := img]> (textureStore (gl w))).
Proof.
  intros w0 w. subst w0 w.
  destruct (invariant_run g es) as [Ht _ _ _ _ _ _ (l & Hl & Hc) Ho _ _].
  split; [|split; [|split; [|split]]].
  - rewrite start_world. cbv zeta. cbn [gl self texture].
    erewrite emittedGL_app by reflexivity. reflexivity.
  - now rewrite (emitted_app _ _ _ Hl).
  - exact Ht.
  - intros t Hne. rewrite (Ho t Hne). now rewrite start_world.
  - intros k img p Hk w'. subst w'. cbn [step]. rewrite Hk, onload_world.
    cbn [gl textureStore]. rewrite Ht.
    erewrite emitted_app by (cbn [gl calls]; reflexivity).
    repeat split; reflexivity.
Qed.

(** C9.  With [latSegments = lonSegments = 40] every index pushed by the
    index loop lies between 0 and 1680 (and 1680 is pushed), so the
    conversion to 16-bit unsigned elements changes none of them: the
    element buffer filled by the constructor holds the index list itself. *)
Theorem indices_fit_uint16 (g : WebGL) :
  Forall (fun k => 0 <= k <= 1680) (panoIndices latSegments lonSegments) /\
  1680 ∈ panoIndices latSegments lonSegments /\
  Forall (fun k => ToUint16 k = k) (panoIndices latSegments lonSegments) /\
  Uint16Array_of (panoIndices latSegments lonSegments) =
    panoIndices latSegments lonSegments /\
  bufferStore (gl (start g)) !! bufferId (indexBuffer (self (start g))) =
    Some (Uint16Array (panoIndices latSegments lonSegments)).
Proof.
  split; [|split; [|split; [|split]]].
  - apply Forall_forall. exact panoIndices_max.
  - unfold panoIndices. apply list_elem_of_bind. exists 39. split.
    + apply list_elem_of_bind. exists 39. split.
      * unfold quad, lonSegments. cbn. do 4 right. left.
      * apply elem_of_seqZ. unfold lonSegments. lia.
    + apply elem_of_seqZ. unfold latSegments. lia.
  - apply Forall_forall. intros k Hk. apply panoIndices_max in Hk.
    unfold ToUint16. apply Z.mod_small. lia.
  - exact Uint16Array_of_panoIndices.
  - apply indexBuffer_start.
Qed.

(** C10.  The [error] listener makes no call on the context and assigns no
    field of the renderer, so [imgElement] is what it was.  Hence on a page
    where the promise of an earlier load has been fulfilled, the renderer
    is still ready after a failed load, and [render] then issues its draw
    call with the renderer's texture bound, whose content is still the
    image held by [imgElement], the last one loaded. *)
Theorem failed_load_keeps_image (g : WebGL) (es : list Event) (k : nat)
    (ev : ErrorEvent) :
  let w := run (start g) es in
  let w1 := step w (FireError k ev) in
  gl w1 = gl w /\ emitted w w1 = [] /\ self w1 = self w /\
  ((exists k' img' v, loads w !! k' = Some (img', Fulfilled v)) ->
   exists img,
     imgElement (self w) = Some img /\
     imgElement (self w1) = Some img /\
     isReady (self w1) = true /\
     forall P V,
       let w2 := exec (render P V) w1 in
       drawCalls (frame w1 P V) = [drawElements TRIANGLES 9600 UNSIGNED_SHORT 0] /\
       texture2D (gl w2) = Some (texture (self w1)) /\
       textureStore (gl w2) !! textureId (texture (self w1)) = Some img).
Proof.
  intros w w1.
  assert (Hgl : gl w1 = gl w /\ self w1 = self w).
  { subst w1. cbn [step]. destruct (loads w !! k); [|now split].
    now rewrite onerror_world. }
  destruct Hgl as [Hgl Hself].
  split; [exact Hgl|]. split; [|split; [exact Hself|]].
  { unfold emitted. rewrite Hgl. apply emitted_same. }
  intros Hf. destruct (loaded_of_fulfilled g es Hf) as [img E]. fold w in E.
  exists img. split; [exact E|]. rewrite Hself. split; [exact E|].
  split; [unfold isReady; now rewrite E|].
  intros P V w2.
  assert (Hw1 : w1 = run (start g) (es ++ [FireError k ev])) by now rewrite run_snoc.
  assert (E1 : imgElement (self w1) = Some img) by now rewrite Hself.
  split.
  - rewrite Hw1 in E1 |- *. now rewrite (frame_loaded _ _ _ _ _ E1).
  - subst w2. rewrite (render_ready _ _ _ _ E1). cbn [gl texture2D textureStore].
    rewrite Hself, Hgl. split; [reflexivity|].
    pose proof (inv_uploaded _ _ (invariant_run g es) img E) as Hu.
    pose proof (inv_texture _ _ (invariant_run g es)) as Ht.
    fold w in Hu, Ht. now rewrite Ht.
Qed.

(** C4, amended.  When the load of a pending promise fails, the promise is
    rejected with the [message] of the error event and the renderer and the
    context are left as they were; so if the renderer held no image before
    the failure it holds none after it, and a following [render] call is a
    no-op that sends nothing to the context. *)
Theorem failed_load_rejects (w : World) (k : nat) (ev : ErrorEvent) (img : Image) :
  loads w !! k = Some (img, Pending) ->
  let w1 := step w (FireError k ev) in
  loads w1 !! k = Some (img, Rejected (message ev)) /\
  console w1 = console w ++ [message ev] /\
  self w1 = self w /\ gl w1 = gl w /\
  (imgElement (self w) = None ->
   isReady (self w1) = false /\
   forall P V, render P V w1 = (tt, w1) /\ drawCalls (frame w1 P V) = []).
Proof.
  intros Hk w1. subst w1. cbn [step]. rewrite Hk, onerror_world.
  cbn [gl self loads console].
  split; [now rewrite list_lookup_alter_eq, Hk|].
  do 3 (split; [reflexivity|]). intros E.
  split; [unfold isReady; now rewrite E|].
  intros P V. split; [now apply render_idle|now rewrite frame_idle].
Qed.


(** * More about the renderer *)

(** ** The log of the context only grows *)

Lemma emitted_same_gl (w w' : World) : gl w' = gl w -> emitted w w' = [].
Proof. intros E. unfold emitted. rewrite E. apply emittedGL_app. now rewrite app_nil_r. Qed.

Lemma step_log (w : World) (e : Event) :
  calls (gl (step w e)) = calls (gl w) ++ emitted w (step w e).
Proof.
  destruct e as [url|k|k ev|P V]; cbn [step].
  - rewrite (emitted_same_gl w) by now rewrite setImage_world.
    rewrite setImage_world. cbn [gl]. now rewrite app_nil_r.
  - destruct (loads w !! k) as [[img p]|].
    + erewrite (emitted_app w) by (rewrite onload_world; cbn [gl calls]; reflexivity).
      now rewrite onload_world.
    + now rewrite emitted_same, app_nil_r.
  - destruct (loads w !! k).
    + rewrite (emitted_same_gl w) by now rewrite onerror_world.
      rewrite onerror_world. cbn [gl]. now rewrite app_nil_r.
    + now rewrite emitted_same, app_nil_r.
  - apply render_extends.
Qed.

Lemma start_log (g : WebGL) :
  calls (gl (start g)) = calls g ++ emittedGL g (gl (start g)).
Proof.
  rewrite start_world. cbv zeta. cbn [gl calls].
  now erewrite emittedGL_app by reflexivity.
Qed.

(** ** The index array *)

(** X1.  For [L, N >= 1] the index loop uses every vertex: the numbers
    that occur in the index array are exactly the vertex numbers
    [0 .. (L+1)*(N+1) - 1]. *)
Theorem every_vertex_indexed (L N k : Z) :
  1 <= L -> 1 <= N ->
  (k ∈ panoIndices L N <-> 0 <= k < (L + 1) * (N + 1)).
Proof.
  intros HL HN. split; [apply panoIndices_bounds|]. intros Hk.
  pose proof (Z.div_mod k (N + 1) ltac:(lia)) as Hdm.
  pose proof (Z.mod_pos_bound k (N + 1) ltac:(lia)) as Hj.
  set (i := k / (N + 1)) in *. set (j := k mod (N + 1)) in *.
  assert (Hi : 0 <= i <= L) by nia.
  unfold panoIndices.
  assert (Hcell : forall i' j', 0 <= i' < L -> 0 <= j' < N ->
            k ∈ quad N i' j' ->
            k ∈ seqZ 0 L ≫= (fun i => seqZ 0 N ≫= (fun j => quad N i j))).
  { intros i' j' Hi' Hj' Hq. apply list_elem_of_bind. exists i'. split.
    - apply list_elem_of_bind. exists j'. split; [exact Hq|].
      apply elem_of_seqZ. lia.
    - apply elem_of_seqZ. lia. }
  destruct (decide (i < L)) as [HiL|HiL]; destruct (decide (j < N)) as [HjN|HjN].
  - apply (Hcell i j); [lia|lia|]. cbv [quad].
    replace k with (i * (N + 1) + j) by lia. left.
  - apply (Hcell i (N - 1)); [lia|lia|]. cbv [quad].
    replace k with (i * (N + 1) + (N - 1) + 1) by lia. do 2 right. left.
  - apply (Hcell (L - 1) j); [lia|lia|]. cbv [quad].
    replace k with ((L - 1 + 1) * (N + 1) + j) by nia. right. left.
  - apply (Hcell (L - 1) (N - 1)); [lia|lia|]. cbv [quad].
    replace k with ((L - 1 + 1) * (N + 1) + (N - 1) + 1) by nia. do 4 right. left.
Qed.

Lemma triangles_quad (N i j : Z) (rest : list Z) :
  triangles (quad N i j ++ rest) =
  (i * (N + 1) + j, (i + 1) * (N + 1) + j, i * (N + 1) + j + 1) ::
  ((i + 1) * (N + 1) + j, (i + 1) * (N + 1) + j + 1, i * (N + 1) + j + 1) ::
  triangles rest.
Proof. reflexivity. Qed.

Lemma triangles_row (P : Z * Z * Z -> Prop) (N i : Z) (js rest : list Z) :
  (forall j, j ∈ js -> forall t, t ∈ triangles (quad N i j) -> P t) ->
  Forall P (triangles rest) ->
  Forall P (triangles ((js ≫= quad N i) ++ rest)) /\
  length (triangles ((js ≫= quad N i) ++ rest)) =
    (2 * length js + length (triangles rest))%nat.
Proof.
  intros Hq Hrest. induction js as [|j js IH]; [split; [exact Hrest|reflexivity]|].
  rewrite bind_cons, <- app_assoc, triangles_quad.
  destruct IH as [IH1 IH2]; [intros j' Hj'; apply Hq; now right|].
  split.
  - constructor; [apply (Hq j); [left|rewrite <- (app_nil_r (quad N i j)), triangles_quad; left]|].
    constructor; [apply (Hq j); [left|rewrite <- (app_nil_r (quad N i j)), triangles_quad; right; left]|].
    exact IH1.
  - cbn [length]. rewrite IH2. lia.
Qed.

(** X2.  Read three at a time, the index array is [2*L*N] triangles, and
    each triangle names three different vertices, all of them existing. *)
Theorem triangles_nondegenerate (L N : Z) :
  0 <= L -> 0 <= N ->
  Z.of_nat (length (triangles (panoIndices L N))) = 2 * L * N /\
  Forall (fun '(a, b, c) =>
            a <> b /\ b <> c /\ a <> c /\
            0 <= a < (L + 1) * (N + 1) /\
            0 <= b < (L + 1) * (N + 1) /\
            0 <= c < (L + 1) * (N + 1))
         (triangles (panoIndices L N)).
Proof.
  intros HL HN. unfold panoIndices.
  set (P := fun t : Z * Z * Z => let '(a, b, c) := t in
            a <> b /\ b <> c /\ a <> c /\
            0 <= a < (L + 1) * (N + 1) /\
            0 <= b < (L + 1) * (N + 1) /\
            0 <= c < (L + 1) * (N + 1)).
  assert (Hrows : forall is_,
    (forall i, i ∈ is_ -> 0 <= i < L) ->
    Forall P (triangles (is_ ≫= fun i => seqZ 0 N ≫= quad N i)) /\
    length (triangles (is_ ≫= fun i => seqZ 0 N ≫= quad N i)) =
      (2 * Z.to_nat N * length is_)%nat).
  { induction is_ as [|i is_ IH]; intros His; [split; [constructor|cbn; lia]|].
    rewrite bind_cons.
    destruct IH as [IH1 IH2]; [intros i' Hi'; apply His; now right|].
    destruct (triangles_row P N i (seqZ 0 N)
                (is_ ≫= fun i => seqZ 0 N ≫= quad N i)) as [H1 H2];
      [|exact IH1|].
    - intros j Hj t Ht. apply elem_of_seqZ in Hj.
      pose proof (His i ltac:(left)) as Hi.
      rewrite <- (app_nil_r (quad N i j)), triangles_quad in Ht.
      apply elem_of_cons in Ht as [->|Ht]; [unfold P; nia|].
      apply elem_of_cons in Ht as [->|Ht]; [unfold P; nia|].
      now apply elem_of_nil in Ht.
    - split; [exact H1|]. rewrite H2, IH2, length_seqZ. cbn [length]. lia. }
  destruct (Hrows (seqZ 0 L)) as [H1 H2].
  { intros i Hi. apply elem_of_seqZ in Hi. lia. }
  split; [|exact H1].
  transitivity (Z.of_nat (2 * Z.to_nat N * length (seqZ 0 L))%nat);
    [exact (f_equal Z.of_nat H2)|].
  rewrite length_seqZ, !Nat2Z.inj_mul, !Z2Nat.id by lia. simpl. ring.
Qed.

(** ** The objects of the context *)

Lemma start_objects (g : WebGL) :
  textureId (texture (self (start g))) = nextObject g /\
  bufferId (vertBuffer (self (start g))) = S (nextObject g) /\
  bufferId (indexBuffer (self (start g))) = S (S (nextObject g)) /\
  nextObject (gl (start g)) = S (S (S (nextObject g))) /\
  textureStore (gl (start g)) = textureStore g /\
  bufferStore (gl (start g)) =
    <[S (S (nextObject g)) :=
        Uint16Array (Uint16Array_of (panoIndices latSegments lonSegments))]>
      (<[S (nextObject g) := Float32Array (panoVerts radius latSegments lonSegments)]>
         (bufferStore g)).
Proof.
  rewrite start_world. cbv zeta.
  cbn [gl self texture vertBuffer indexBuffer textureId bufferId nextObject
       textureStore bufferStore].
  repeat split; reflexivity.
Qed.

(** X3.  Two renderers made on one context share nothing: the second gets
    a texture and two buffers of its own, its construction leaves the
    buffers of the first with their content, and whatever happens to the
    second afterwards never writes the texture of the first. *)
Theorem renderers_do_not_share (g : WebGL) (es : list Event) :
  let w1 := start g in
  let w2 := start (gl w1) in
  NoDup [ textureId (texture (self w1)); bufferId (vertBuffer (self w1));
          bufferId (indexBuffer (self w1));
          textureId (texture (self w2)); bufferId (vertBuffer (self w2));
          bufferId (indexBuffer (self w2)) ] /\
  bufferStore (gl w2) !! bufferId (vertBuffer (self w1)) =
    Some (Float32Array (panoVerts radius latSegments lonSegments)) /\
  bufferStore (gl w2) !! bufferId (indexBuffer (self w1)) =
    Some (Uint16Array (panoIndices latSegments lonSegments)) /\
  textureStore (gl (run w2 es)) !! textureId (texture (self w1)) =
    textureStore g !! textureId (texture (self w1)).
Proof.
  intros w1 w2.
  destruct (start_objects g) as (Et1 & Ev1 & Ei1 & En1 & Es1 & Eb1).
  destruct (start_objects (gl (start g))) as (Et2 & Ev2 & Ei2 & _ & Es2 & Eb2).
  pose proof (inv_other_textures _ _ (invariant_run (gl (start g)) es)) as Ho.
  fold w1 in Ho. fold w2 in Ho.
  fold w1 in Et1, Ev1, Ei1, En1, Es1, Eb1, Et2, Ev2, Ei2, Es2, Eb2.
  fold w2 in Et2, Ev2, Ei2, Es2, Eb2.
  clearbody w1 w2.
  split; [|split; [|split]].
  - rewrite Et1, Ev1, Ei1, Et2, Ev2, Ei2, En1.
    repeat (constructor; [rewrite ?elem_of_cons, elem_of_nil; lia|]). constructor.
  - rewrite Eb2, Ev1, En1, !lookup_insert_ne, Eb1 by lia.
    now rewrite lookup_insert_ne, lookup_insert_eq by lia.
  - rewrite Eb2, Ei1, En1, !lookup_insert_ne, Eb1 by lia.
    now rewrite lookup_insert_eq, Uint16Array_of_panoIndices.
  - rewrite Ho by (rewrite Et1, Et2, En1; lia). now rewrite Es2, Es1.
Qed.

(** X4.  The draw call of [render] reads nothing outside the buffers: when
    it is issued, the two buffers of the renderer are the bound ones, the
    count of the draw is the length of the bound index array, and every
    index in it addresses a whole 20-byte vertex inside the bound vertex
    array. *)
Theorem draw_reads_inside_buffers (g : WebGL) (es : list Event) (P V : Mat4)
    (img : Image) :
  let w := run (start g) es in
  imgElement (self w) = Some img ->
  let w' := exec (render P V) w in
  exists verts idx,
    arrayBuffer (gl w') = Some (vertBuffer (self w)) /\
    bufferStore (gl w') !! bufferId (vertBuffer (self w)) = Some (Float32Array verts) /\
    elementArrayBuffer (gl w') = Some (indexBuffer (self w)) /\
    bufferStore (gl w') !! bufferId (indexBuffer (self w)) = Some (Uint16Array idx) /\
    last (frame w P V) =
      Some (drawElements TRIANGLES (Z.of_nat (length idx)) UNSIGNED_SHORT 0) /\
    Forall (fun k => 0 <= k /\ 20 * k + 20 <= 4 * Z.of_nat (length verts)) idx.
Proof.
  intros w E w'.
  exists (panoVerts radius latSegments lonSegments),
         (panoIndices latSegments lonSegments).
  pose proof (invariant_run g es) as [_ _ Hvb Hib _ _ Hbs _ _ _ _].
  fold w in Hvb, Hib, Hbs.
  assert (Hst : bufferStore (gl w') = bufferStore (gl (start g))).
  { unfold w'. now rewrite (render_ready _ _ _ _ E). }
  split; [unfold w'; now rewrite (render_ready _ _ _ _ E)|].
  split.
  { rewrite Hst, Hvb, start_world. cbv zeta. cbn [gl self bufferStore vertBuffer bufferId].
    now rewrite lookup_insert_ne, lookup_insert_eq by lia. }
  split; [unfold w'; now rewrite (render_ready _ _ _ _ E)|].
  split; [rewrite Hst, Hib; apply indexBuffer_start|].
  split.
  { unfold w in E |- *. rewrite (frame_loaded _ _ _ _ _ E).
    now rewrite length_panoIndices. }
  apply Forall_forall. intros k Hk. apply panoIndices_max in Hk.
  rewrite length_panoVerts by (unfold latSegments, lonSegments; lia).
  unfold latSegments, lonSegments. lia.
Qed.

(** ** Loads *)

Lemma loaded_step (w : World) (e : Event) (img : Image) :
  (forall k, e <> FireLoad k) ->
  imgElement (self w) = Some img -> imgElement (self (step w e)) = Some img.
Proof.
  intros He Hw. destruct e as [url|k|k ev|P V]; cbn [step].
  - exact Hw.
  - now destruct (He k).
  - now destruct (loads w !! k).
  - now rewrite (proj1 (render_self _ _ _)).
Qed.

(** X5.  The renderer shows the image whose [load] event came last,
    whatever the order of the [setImage] calls: after the event of the
    [k]-th image, and through all later [render] calls, failed loads and
    new [setImage] calls, [imgElement] and the content of the renderer's
    texture are that image. *)
Theorem last_load_wins (g : WebGL) (es es' : list Event) (k : nat)
    (img : Image) (p : Promise) :
  loads (run (start g) es) !! k = Some (img, p) ->
  (forall j, FireLoad j ∉ es') ->
  let w' := run (step (run (start g) es) (FireLoad k)) es' in
  imgElement (self w') = Some img /\
  textureStore (gl w') !! textureId (texture (self w')) = Some img.
Proof.
  intros Hk Hes' w'.
  assert (Hw' : w' = run (start g) ((es ++ [FireLoad k]) ++ es')).
  { unfold w', run. now rewrite !foldl_app. }
  assert (E : imgElement (self w') = Some img).
  { unfold w'. clear Hw'. induction es' as [|e es' IH] using rev_ind.
    - cbn [run foldl step]. rewrite Hk, onload_world. reflexivity.
    - rewrite run_snoc. apply loaded_step.
      + intros j ->. apply (Hes' j), elem_of_app. right. now left.
      + apply IH. intros j Hj. apply (Hes' j), elem_of_app. now left. }
  split; [exact E|].
  rewrite Hw' in E |- *.
  rewrite (inv_texture _ _ (invariant_run g _)).
  exact (inv_uploaded _ _ (invariant_run g _) img E).
Qed.

Lemma idle_before (w : World) (e : Event) :
  imgElement (self (step w e)) = None ->
  imgElement (self w) = None /\ drawCalls (emitted w (step w e)) = [].
Proof.
  destruct e as [url|k|k ev|P V]; cbn [step].
  - intros E. split; [exact E|]. now rewrite emitted_same_gl.
  - destruct (loads w !! k) as [[img p]|].
    + rewrite onload_world. discriminate.
    + intros E. split; [exact E|]. now rewrite emitted_same.
  - destruct (loads w !! k).
    + rewrite onerror_world. intros E. split; [exact E|].
      now rewrite emitted_same_gl.
    + intros E. split; [exact E|]. now rewrite emitted_same.
  - rewrite (proj1 (render_self _ _ _)). intros E. split; [exact E|].
    fold (frame w P V). now rewrite frame_idle.
Qed.

Lemma run_log (w0 : World) (es : list Event) :
  calls (gl (run w0 es)) = calls (gl w0) ++ emitted w0 (run w0 es).
Proof.
  induction es as [|e es IH] using rev_ind.
  - cbn [run foldl]. now rewrite emitted_same, app_nil_r.
  - rewrite run_snoc.
    assert (Hs : calls (gl (step (run w0 es) e)) =
                 calls (gl w0) ++ emitted w0 (run w0 es) ++
                 emitted (run w0 es) (step (run w0 es) e)).
    { now rewrite step_log, IH, app_assoc. }
    now rewrite (emitted_app _ _ _ Hs).
Qed.

Lemma idle_log (w0 : World) (es : list Event) :
  imgElement (self (run w0 es)) = None ->
  drawCalls (emitted w0 (run w0 es)) = [].
Proof.
  induction es as [|e es IH] using rev_ind.
  - intros _. cbn [run foldl]. now rewrite emitted_same.
  - rewrite run_snoc. intros E.
    destruct (idle_before _ e E) as [E0 Hd].
    assert (Hs : calls (gl (step (run w0 es) e)) =
                 calls (gl w0) ++ emitted w0 (run w0 es) ++
                 emitted (run w0 es) (step (run w0 es) e)).
    { now rewrite step_log, (run_log w0 es), app_assoc. }
    rewrite (emitted_app _ _ _ Hs). unfold drawCalls in *.
    now rewrite filter_app, Hd, (IH E0).
Qed.

Lemma start_draws (g : WebGL) : drawCalls (emittedGL g (gl (start g))) = [].
Proof.
  rewrite start_world. cbv zeta. cbn [gl].
  now erewrite emittedGL_app by reflexivity.
Qed.

Lemma idle_context_log (g : WebGL) (es : list Event) :
  imgElement (self (run (start g) es)) = None ->
  drawCalls (emittedGL g (gl (run (start g) es))) = [].
Proof.
  intros Ei.
  assert (G : forall w0 : World,
    imgElement (self (run w0 es)) = None ->
    drawCalls (emittedGL g (gl w0)) = [] ->
    calls (gl w0) = calls g ++ emittedGL g (gl w0) ->
    drawCalls (emittedGL g (gl (run w0 es))) = []).
  { clear Ei. intros w0 Ei Hs Hg.
    pose proof (idle_log w0 es Ei) as Hd.
    pose proof (run_log w0 es) as Hl.
    assert (Hc : calls (gl (run w0 es)) =
                 calls g ++ emittedGL g (gl w0) ++ emitted w0 (run w0 es)).
    { now rewrite Hl, Hg, <- app_assoc. }
    rewrite (emittedGL_app _ _ _ Hc). unfold drawCalls in *.
    now rewrite filter_app, Hs, Hd. }
  exact (G (start g) Ei (start_draws g) (start_log g)).
Qed.

(** X12.  A renderer that holds no image has never drawn: as long as
    [imgElement] is null, the log of the context contains no draw call of
    the renderer, whatever was called on it. *)
Theorem never_drew_without_image (g : WebGL) (es : list Event) :
  isReady (self (run (start g) es)) = false ->
  drawCalls (emittedGL g (gl (run (start g) es))) = [].
Proof.
  intros E. apply idle_context_log. unfold isReady in E.
  now destruct (imgElement (self (run (start g) es))).
Qed.

(** * The page's script *)

(** Symbolic execution of the script on a state given by its fields; the
    code of the renderer stays folded. *)
Ltac run_script :=
  lazy [perform scriptStep onAnimationFrame init onDisplays onDisplaysRejected
    onVRRequestPresent onRequestPresentFulfilled onRequestPresentRejected
    onVRExitPresent onExitPresentFulfilled onExitPresentRejected onVRPresentChange
    getPoseMatrix emit callPage newPanorama window_raf display_raf
    VRSamplesUtil_addButton onResize hasButton boot
    modify gets mbind mret State_bind State_ret fst snd
    vrDisplay frameData poseMat viewMat vrPresentButton projectionMat page
    canvasWidth canvasHeight hostContext offsetWidth offsetHeight devicePixelRatio
    displaysPending presentRequests exitRequests scheduled nextButton trace
    set_vrDisplay set_frameData set_viewMat set_vrPresentButton set_projectionMat
    set_page set_canvasWidth set_canvasHeight set_offsetWidth set_offsetHeight
    set_devicePixelRatio set_displaysPending set_presentRequests set_exitRequests
    set_scheduled set_nextButton set_trace
    isPresenting displayId depthNear depthFar orientation].

Ltac shell_fields :=
  cbn [vrDisplay frameData poseMat viewMat vrPresentButton projectionMat page
    canvasWidth canvasHeight hostContext offsetWidth offsetHeight devicePixelRatio
    displaysPending presentRequests exitRequests scheduled nextButton trace] in *.

Lemma traced_app (s s' : Shell) (l : list ScriptCall) :
  trace s' = trace s ++ l -> traced s s' = l.
Proof. intros E. unfold traced. rewrite E. apply drop_app_length. Qed.

Lemma scriptRun_snoc (s : Shell) (es : list ScriptEvent) (e : ScriptEvent) :
  scriptRun s (es ++ [e]) = scriptStep (scriptRun s es) e.
Proof. unfold scriptRun. now rewrite foldl_app. Qed.

(** ** The renderer's calls inside the trace *)

Lemma contextCalls_app (l l' : list ScriptCall) :
  contextCalls (l ++ l') = contextCalls l ++ contextCalls l'.
Proof. apply bind_app. Qed.

Lemma contextCalls_context (l : list GLCall) : contextCalls (context <$> l) = l.
Proof.
  induction l as [|c l IH]; [reflexivity|].
  rewrite fmap_cons. unfold contextCalls in *. rewrite bind_cons, IH. reflexivity.
Qed.

Lemma contextCalls_other (c : ScriptCall) :
  isContextCall c = false -> contextCalls [c] = [].
Proof. now destruct c. Qed.

Lemma buttonCalls_context (l : list GLCall) :
  filter isButtonCall (context <$> l) = [].
Proof.
  induction l as [|c l IH]; [reflexivity|].
  rewrite fmap_cons, filter_cons_False; [exact IH|]. cbn. tauto.
Qed.

Lemma buttonCalls_other (c : ScriptCall) :
  isButtonCall c = false -> filter isButtonCall [c] = [].
Proof. intros E. rewrite filter_cons_False; [reflexivity|]. now rewrite E. Qed.

Lemma buttonCalls_button (c : ScriptCall) :
  isButtonCall c = true -> filter isButtonCall [c] = [c].
Proof. intros E. rewrite filter_cons_True; [reflexivity|]. now rewrite E. Qed.

Lemma contextCalls_cons (c d : ScriptCall) (l : list ScriptCall) :
  contextCalls (c :: d :: l) = contextCalls [c] ++ contextCalls (d :: l).
Proof. apply (contextCalls_app [c]). Qed.

Lemma buttonCalls_cons (c d : ScriptCall) (l : list ScriptCall) :
  filter isButtonCall (c :: d :: l) =
  filter isButtonCall [c] ++ filter isButtonCall (d :: l).
Proof. apply (filter_app _ [c]). Qed.

(** Normal form of the trace after a piece of the script has run. *)
Ltac trace_facts :=
  repeat rewrite <- app_assoc;
  repeat first
    [ rewrite contextCalls_app | rewrite contextCalls_context
    | rewrite contextCalls_cons | rewrite buttonCalls_cons
    | rewrite contextCalls_other by reflexivity
    | rewrite filter_app | rewrite buttonCalls_context
    | rewrite buttonCalls_other by reflexivity
    | rewrite buttonCalls_button by reflexivity
    | rewrite app_nil_r | rewrite app_nil_l ].

(** ** [init] *)

Lemma init_no_context (s : Shell) :
  hostContext s = None ->
  init s = (false, set_trace (trace s ++ [getContext "webgl" false false true]) s).
Proof. destruct s. shell_fields. intros ->. reflexivity. Qed.

Lemma init_context (s : Shell) (g : WebGL) :
  hostContext s = Some g ->
  init s =
  (true,
   set_trace
     (trace s ++
        [ getContext "webgl" false false true; enable DEPTH_TEST; enable CULL_FACE ] ++
        (context <$> emittedGL g (gl (start g))) ++
        [ window_requestAnimationFrame Handler_onAnimationFrame ])
     (set_scheduled (S (scheduled s))
        (set_canvasHeight (toUnsignedLong (offsetHeight s * devicePixelRatio s)%num)
           (set_canvasWidth (toUnsignedLong (offsetWidth s * devicePixelRatio s)%num)
              (set_page (Some (run (start g) [CallSetImage officeImage])) s))))).
Proof.
  destruct s. shell_fields. intros ->. unfold init. run_script.
  change (exec (setImage "media/textures/kla_office_1.jpg") (start g))
    with (run (start g) [CallSetImage officeImage]).
  replace (emitted (start g) (run (start g) [CallSetImage officeImage]))
    with (@nil GLCall) by (symmetry; apply emitted_same_gl; reflexivity).
  rewrite fmap_nil, app_nil_r. repeat rewrite <- app_assoc. reflexivity.
Qed.

(** ** What the script keeps *)

Lemma page_after_init (g : WebGL) :
  calls (gl (run (start g) [CallSetImage officeImage])) =
  calls g ++ emittedGL g (gl (start g)).
Proof. exact (start_log g). Qed.

Ltac boot_field :=
  shell_fields; cbn [hasGetVRDisplays webglContext];
  first
    [ solve [intros; discriminate] | reflexivity
    | solve [intros [? [=]]]
    | solve [intros; eexists; reflexivity]
    | solve [intros _; repeat split]
    | solve [let Hlt := fresh in intros Hlt; exfalso; cbn in Hlt; lia]
    | solve [trace_facts; constructor]
    | idtac ].

Lemma scriptInvariant_boot (h : Host) : scriptInvariant h (boot h).
Proof.
  destruct h as [vr ctx [cw ch] [ow oh] dpr]. unfold boot.
  cbn [hasGetVRDisplays webglContext canvasSize canvasLayout pixelRatio fst snd].
  destruct vr.
  - run_script. split; boot_field.
  - unfold perform. unfold mbind, State_bind.
    destruct ctx as [g|].
    + rewrite (init_context _ g) by reflexivity. run_script.
      split; boot_field.
      intros w [= <-]. exists g, []. split; [reflexivity|]. split; [reflexivity|].
      split; [constructor|].
      etransitivity; [exact (page_after_init g)|]. trace_facts. reflexivity.
    + rewrite init_no_context by reflexivity. run_script. split; boot_field.
Qed.

Ltac open_state s H :=
  destruct s as [vd fdv pm vm pb prj pg cw ch hc ow oh dpr dp pr er sc nb tr];
  destruct H as [Hctx Hpage Hnopage Hsched Hpend Hdisp Hfd Hbtn Hreq Halt];
  shell_fields.

(** The fields of the invariant that a step leaves as they are. *)
Ltac some := eexists; reflexivity.

Ltac kept :=
  shell_fields;
  first
    [ assumption | reflexivity
    | solve [intros; discriminate]
    | solve [intros [? [=]]]
    | solve [eauto]
    | solve [intros; some]
    | solve [trace_facts; assumption]
    | solve [intros;
             match goal with
             | Hd : is_Some _ -> hasGetVRDisplays _ = true |- _ => apply Hd; some
             end]
    | solve [let Hx := fresh in intros Hx;
             match goal with
             | Hb : is_Some _ -> is_Some _ /\ is_Some _ |- _ =>
                 destruct (Hb Hx); split; solve [assumption | some]
             end]
    | solve [intros;
             match goal with
             | Hr : (0 < _ + _)%nat -> is_Some _ |- _ => apply Hr; lia
             end]
    | solve [intros;
             match goal with
             | Hb : is_Some _ -> is_Some _ /\ is_Some _ |- _ =>
                 destruct Hb; [some|]; split; solve [assumption | some]
             end]
    | solve [let Hx := fresh in intros Hx;
             match goal with
             | Hp : _ = true -> _ /\ _ /\ _ |- _ =>
                 destruct (Hp Hx) as (? & ? & ?);
                 first [discriminate | repeat split; assumption]
             end] ].

(** The page is the same and the trace has grown by calls of the script. *)
Ltac same_page Hpage Hnopage :=
  shell_fields;
  first
    [ solve [ let w := fresh "w" in let Hw := fresh "Hw" in
              intros w Hw; destruct (Hpage w Hw) as (g & es & Hg & Hes & Hn & Hc);
              exists g, es; split; [exact Hg|]; split; [exact Hes|];
              split; [exact Hn|]; trace_facts; exact Hc ]
    | solve [ let Hn := fresh "Hn" in
              intros Hn; trace_facts; exact (Hnopage Hn) ] ].

Lemma alternates_None (l : list ScriptCall) : alternates l None -> l = [].
Proof. now inversion 1. Qed.

Lemma invariant_host_events (h : Host) (s : Shell) :
  scriptInvariant h s ->
  (forall b, scriptInvariant h (scriptStep s (HostPresenting b))) /\
  (forall ow oh dpr, scriptInvariant h (scriptStep s (HostLayout ow oh dpr))).
Proof.
  intros H. open_state s H. split.
  - intros b. cbn [scriptStep vrDisplay]. destruct vd as [d|].
    + run_script. split; try kept.
    + split; kept.
  - intros ow' oh' dpr'. run_script. split; kept.
Qed.

Lemma invariant_rejections (h : Host) (s : Shell) :
  scriptInvariant h s ->
  scriptInvariant h (scriptStep s DisplaysRejected) /\
  (forall err, scriptInvariant h (scriptStep s (RequestPresentRejected err))) /\
  scriptInvariant h (scriptStep s ExitPresentRejected).
Proof.
  intros H. pose proof H as H0. open_state s H. split; [|split].
  - cbn [scriptStep displaysPending]. destruct dp; [|exact H0].
    destruct (Hpend eq_refl) as (-> & -> & Hvr).
    run_script. split; try kept; try same_page Hpage Hnopage.
  - intros err. cbn [scriptStep presentRequests]. destruct pr as [|n]; [exact H0|].
    run_script. split; try kept; try same_page Hpage Hnopage.
  - cbn [scriptStep exitRequests]. destruct er as [|n]; [exact H0|].
    run_script. split; try kept; try same_page Hpage Hnopage.
Qed.

Lemma page_extends (g : WebGL) (es : list Event) (w : World) (e : Event)
    (tr : list ScriptCall) :
  w = run (start g) (CallSetImage officeImage :: es) ->
  calls (gl w) = calls g ++ contextCalls tr ->
  step w e = run (start g) (CallSetImage officeImage :: es ++ [e]) /\
  calls (gl (step w e)) =
    calls g ++ contextCalls (tr ++ (context <$> emitted w (step w e))).
Proof.
  intros Hw Hc. split.
  - rewrite Hw. symmetry. apply (run_snoc _ (CallSetImage officeImage :: es)).
  - rewrite step_log, Hc. trace_facts. reflexivity.
Qed.

Lemma notSetImage_snoc (es : list Event) (e : Event) :
  Forall notSetImage es -> notSetImage e -> Forall notSetImage (es ++ [e]).
Proof. intros Hes He. apply Forall_app. split; [exact Hes|]. now constructor. Qed.

Lemma invariant_images (h : Host) (s : Shell) :
  scriptInvariant h s ->
  (forall k, scriptInvariant h (scriptStep s (ImageLoad k))) /\
  (forall k ev, scriptInvariant h (scriptStep s (ImageError k ev))).
Proof.
  intros H. pose proof H as H0. open_state s H.
  assert (Hgen : forall e, notSetImage e ->
    scriptInvariant h
      (perform (callPage (fun w => step w e))
         {| vrDisplay := vd; frameData := fdv; poseMat := pm; viewMat := vm;
            vrPresentButton := pb; projectionMat := prj; page := pg;
            canvasWidth := cw; canvasHeight := ch; hostContext := hc;
            offsetWidth := ow; offsetHeight := oh; devicePixelRatio := dpr;
            displaysPending := dp; presentRequests := pr; exitRequests := er;
            scheduled := sc; nextButton := nb; trace := tr |})).
  { intros e He. destruct pg as [w|]; [|exact H0].
    run_script. split; try kept.
    shell_fields. intros w' [= <-].
    destruct (Hpage w eq_refl) as (g & es & Hg & Hes & Hn & Hc).
    destruct (page_extends g es w e tr Hes Hc) as [Hrun Hlog].
    exists g, (es ++ [e]). split; [exact Hg|]. split; [exact Hrun|].
    split; [now apply notSetImage_snoc|exact Hlog]. }
  split; intros; apply Hgen; exact I.
Qed.

Lemma invariant_clicks (h : Host) (s : Shell) :
  scriptInvariant h s ->
  scriptInvariant h (scriptStep s ClickEnterVR) /\
  scriptInvariant h (scriptStep s ClickExitVR).
Proof.
  intros H. pose proof H as H0. open_state s H.
  split; cbn [scriptStep hasButton vrPresentButton];
    (destruct pb as [b|]; [|exact H0]);
    (destruct vd as [d|]; [|destruct (Hbtn ltac:(some)) as [[? [=]] _]]).
  - run_script. split; try kept; try same_page Hpage Hnopage.
  - destruct d as [di [|] dn df].
    + run_script. split; try kept; try same_page Hpage Hnopage.
    + exact H0.
Qed.

Lemma alternates_replace (tr : list ScriptCall) (b b' : Button)
    (label key icon : string) (onclick : Handler) :
  alternates (filter isButtonCall tr) (Some b) ->
  alternates
    (filter isButtonCall
       (tr ++ [removeButton (Some b); addButton label key icon onclick b']))
    (Some b').
Proof.
  intros H. rewrite filter_app.
  replace (filter isButtonCall
             [removeButton (Some b); addButton label key icon onclick b'])
    with [removeButton (Some b); addButton label key icon onclick b']
    by reflexivity.
  now apply alternates_next.
Qed.

Ltac replaced :=
  shell_fields; repeat rewrite <- app_assoc;
  match goal with
  | Ha : alternates _ (Some ?b) |- alternates (filter _ (?tr ++ _)) _ =>
      apply (alternates_replace tr b); exact Ha
  end.

Lemma invariant_buttons (h : Host) (s : Shell) :
  scriptInvariant h s ->
  scriptInvariant h (scriptStep s PresentChange) /\
  scriptInvariant h (scriptStep s RequestPresentFulfilled) /\
  scriptInvariant h (scriptStep s ExitPresentFulfilled).
Proof.
  intros H. pose proof H as H0. open_state s H. split; [|split].
  - cbn [scriptStep hasButton vrPresentButton].
    destruct pb as [b|]; [|exact H0].
    destruct vd as [d|]; [|destruct (Hbtn ltac:(some)) as [[? [=]] _]].
    destruct d as [di [|] dn df]; run_script;
      (split; try kept; try same_page Hpage Hnopage; try replaced).
  - cbn [scriptStep presentRequests]. destruct pr as [|n]; [exact H0|].
    destruct pb as [b|]; [|destruct (Hreq ltac:(lia)) as [? [=]]].
    run_script. split; try kept; try same_page Hpage Hnopage; try replaced.
  - cbn [scriptStep exitRequests]. destruct er as [|n]; [exact H0|].
    destruct pb as [b|]; [|destruct (Hreq ltac:(lia)) as [? [=]]].
    run_script. split; try kept; try same_page Hpage Hnopage; try replaced.
Qed.

Lemma invariant_displays (h : Host) (s : Shell) (displays : list VRDisplay) :
  scriptInvariant h s -> scriptInvariant h (scriptStep s (DisplaysFulfilled displays)).
Proof.
  intros H. pose proof H as H0. open_state s H.
  cbn [scriptStep displaysPending]. destruct dp; [|exact H0].
  destruct (Hpend eq_refl) as (-> & -> & Hvr).
  assert (pb = None) as ->.
  { destruct pb; [|reflexivity]. destruct (Hbtn ltac:(some)) as [[? [=]] _]. }
  pose proof (alternates_None _ Halt) as Hnil. rewrite Hsched.
  unfold perform, onDisplays. destruct (last displays) as [d|].
  - unfold mbind, State_bind, modify. cbn [set_displaysPending set_vrDisplay].
    shell_fields. destruct hc as [g|].
    + rewrite (init_context _ g) by reflexivity. run_script.
      split; try kept.
      * shell_fields. intros w [= <-]. exists g, [].
        split; [now rewrite <- Hctx|]. split; [reflexivity|].
        split; [constructor|].
        etransitivity; [exact (page_after_init g)|].
        trace_facts. now rewrite (Hnopage eq_refl).
      * shell_fields. trace_facts. rewrite Hnil. constructor.
    + rewrite init_no_context by reflexivity. run_script.
      split; try kept; try same_page Hpage Hnopage.
  - unfold mbind, State_bind. cbn [set_displaysPending]. shell_fields.
    destruct hc as [g|].
    + rewrite (init_context _ g) by reflexivity. run_script.
      split; try kept.
      shell_fields. intros w [= <-]. exists g, [].
      split; [now rewrite <- Hctx|]. split; [reflexivity|].
      split; [constructor|].
      etransitivity; [exact (page_after_init g)|].
      trace_facts. now rewrite (Hnopage eq_refl).
    + rewrite init_no_context by reflexivity. run_script.
      split; try kept; try same_page Hpage Hnopage.
Qed.

(** ** One animation frame *)

Lemma frame_flat (s : Shell) (w : World) (fd : FrameData) :
  page s = Some w -> presenting s = false ->
  perform (onAnimationFrame fd) s =
  set_trace
    (trace s ++
       [ clear 16640; window_requestAnimationFrame Handler_onAnimationFrame;
         viewport (ofZ 0) (ofZ 0) (canvasWidth s) (canvasHeight s) ] ++
       (context <$> frame w (flatProjection s) mat4_create))
    (set_page (Some (exec (render (flatProjection s) mat4_create) w))
       (set_projectionMat (flatProjection s)
          (set_scheduled (S (scheduled s)) s))).
Proof.
  destruct s. unfold presenting, flatProjection. shell_fields. intros -> Hp.
  unfold frame. run_script.
  destruct vrDisplay0 as [[di [|] dn df]|]; try discriminate Hp;
    repeat rewrite <- app_assoc; reflexivity.
Qed.

Lemma frame_stereo (s : Shell) (w : World) (fd : FrameData)
    (old : option FrameData) (q : list num) :
  page s = Some w -> presenting s = true -> frameData s = Some old ->
  orientation fd = Some q ->
  let V := mat4_invert (mat4_fromQuat q) in
  let half := (canvasWidth s * decimal 5 1)%num in
  let w1 := exec (render (leftProjectionMatrix fd) V) w in
  let w2 := exec (render (rightProjectionMatrix fd) V) w1 in
  perform (onAnimationFrame fd) s =
  set_trace
    (trace s ++
       [ clear 16640; display_requestAnimationFrame Handler_onAnimationFrame;
         display_getFrameData;
         viewport (ofZ 0) (ofZ 0) half (canvasHeight s) ] ++
       (context <$> frame w (leftProjectionMatrix fd) V) ++
       [ viewport half (ofZ 0) half (canvasHeight s) ] ++
       (context <$> frame w1 (rightProjectionMatrix fd) V) ++
       [ display_submitFrame ])
    (set_page (Some w2)
       (set_viewMat V
          (set_frameData (Some (Some fd))
             (set_scheduled (S (scheduled s)) s)))).
Proof.
  destruct s, fd as [lp rp o]. unfold presenting. shell_fields.
  cbn [orientation]. intros -> Hp -> ->.
  destruct vrDisplay0 as [[di [|] dn df]|]; try discriminate Hp.
  unfold frame. run_script.
  repeat rewrite <- app_assoc. reflexivity.
Qed.

Lemma frame_stereo_blind (s : Shell) (w : World) (fd : FrameData)
    (old : option FrameData) :
  page s = Some w -> presenting s = true -> frameData s = Some old ->
  orientation fd = None ->
  perform (onAnimationFrame fd) s =
  set_trace
    (trace s ++
       [ clear 16640; display_requestAnimationFrame Handler_onAnimationFrame;
         display_getFrameData ])
    (set_frameData (Some (Some fd)) (set_scheduled (S (scheduled s)) s)).
Proof.
  destruct s, fd as [lp rp o]. unfold presenting. shell_fields.
  cbn [orientation]. intros -> Hp -> ->.
  destruct vrDisplay0 as [[di [|] dn df]|]; try discriminate Hp.
  run_script. repeat rewrite <- app_assoc. reflexivity.
Qed.

Lemma frame_stereo_null (s : Shell) (w : World) (fd : FrameData) :
  page s = Some w -> presenting s = true -> frameData s = None ->
  perform (onAnimationFrame fd) s =
  set_trace
    (trace s ++
       [ clear 16640; display_requestAnimationFrame Handler_onAnimationFrame;
         display_getFrameData ])
    (set_scheduled (S (scheduled s)) s).
Proof.
  destruct s. unfold presenting. shell_fields. intros -> Hp ->.
  destruct vrDisplay0 as [[di [|] dn df]|]; try discriminate Hp.
  run_script. repeat rewrite <- app_assoc. reflexivity.
Qed.

Lemma render_reached (g : WebGL) (es : list Event) (w : World) (P V : Mat4)
    (tr : list ScriptCall) :
  w = run (start g) (CallSetImage officeImage :: es) ->
  calls (gl w) = calls g ++ contextCalls tr ->
  exec (render P V) w =
    run (start g) (CallSetImage officeImage :: es ++ [CallRender P V]) /\
  calls (gl (exec (render P V) w)) =
    calls g ++ contextCalls (tr ++ (context <$> frame w P V)).
Proof. exact (page_extends g es w (CallRender P V) tr). Qed.

Lemma invariant_frame (h : Host) (s : Shell) (fd : FrameData) :
  scriptInvariant h s -> scriptInvariant h (scriptStep s (AnimationFrame fd)).
Proof.
  intros H. pose proof H as H0. cbn [scriptStep].
  destruct (scheduled s) as [|n] eqn:Esc; [exact H0|].
  destruct (page s) as [w|] eqn:Epg;
    [|rewrite (si_scheduled _ _ H), Epg in Esc; discriminate Esc].
  assert (n = 0%nat) as ->.
  { rewrite (si_scheduled _ _ H), Epg in Esc. now injection Esc. }
  destruct (si_page _ _ H w Epg) as (g & es & Hg & Hes & Hn & Hc).
  assert (Epg' : page (set_scheduled 0 s) = Some w) by (destruct s; exact Epg).
  destruct (presenting s) eqn:Epr.
  - assert (Hfd : is_Some (frameData s)).
    { apply (si_frameData _ _ H), (si_display _ _ H).
      unfold presenting in Epr. destruct (vrDisplay s); [some|discriminate]. }
    destruct Hfd as [old Hold].
    destruct (orientation fd) as [q|] eqn:Eq.
    + rewrite (frame_stereo _ w fd old q) by (destruct s; assumption).
      set (V := mat4_invert (mat4_fromQuat q)).
      open_state s H. subst pg. run_script.
      destruct (render_reached g es w (leftProjectionMatrix fd) V
                  (tr ++ [clear 16640]) Hes) as [Hr1 Hl1].
      { trace_facts. exact Hc. }
      destruct (render_reached g (es ++ [CallRender (leftProjectionMatrix fd) V])
                  _ (rightProjectionMatrix fd) V _ Hr1 Hl1)
        as [Hr2 Hl2].
      split; try kept.
      shell_fields. intros w' [= <-].
      exists g, ((es ++ [CallRender (leftProjectionMatrix fd) V]) ++
                 [CallRender (rightProjectionMatrix fd) V]).
      split; [exact Hg|]. split; [exact Hr2|].
      split; [repeat apply notSetImage_snoc; solve [assumption | exact I]|].
      etransitivity; [exact Hl2|]. trace_facts. reflexivity.
    + rewrite (frame_stereo_blind _ w fd old) by (destruct s; assumption).
      open_state s H. subst pg. run_script.
      split; try kept; try same_page Hpage Hnopage.
  - rewrite (frame_flat _ w fd) by (destruct s; assumption).
    open_state s H. subst pg. unfold flatProjection. run_script.
    match goal with
    | |- context [render ?P mat4_create] =>
        destruct (render_reached g es w P mat4_create (tr ++ [clear 16640]) Hes)
          as [Hr1 Hl1]; [trace_facts; exact Hc|]
    end.
    split; try kept.
    shell_fields. intros w' [= <-].
    eexists g, _. split; [exact Hg|]. split; [exact Hr1|].
    split; [apply notSetImage_snoc; solve [assumption | exact I]|].
    etransitivity; [exact Hl1|]. trace_facts. reflexivity.
Qed.

Lemma scriptInvariant_step (h : Host) (s : Shell) (e : ScriptEvent) :
  scriptInvariant h s -> scriptInvariant h (scriptStep s e).
Proof.
  intros H. destruct e.
  - now apply invariant_displays.
  - now apply invariant_rejections.
  - now apply invariant_frame.
  - now apply invariant_clicks.
  - now apply invariant_clicks.
  - now apply invariant_buttons.
  - now apply invariant_buttons.
  - now apply invariant_rejections.
  - now apply invariant_buttons.
  - now apply invariant_rejections.
  - now apply invariant_images.
  - now apply invariant_images.
  - now apply invariant_host_events.
  - now apply invariant_host_events.
Qed.

Lemma scriptInvariant_run (h : Host) (es : list ScriptEvent) :
  scriptInvariant h (scriptRun (boot h) es).
Proof.
  induction es as [|e es IH] using rev_ind; [apply scriptInvariant_boot|].
  rewrite scriptRun_snoc. now apply scriptInvariant_step.
Qed.

(** ** Draw calls inside the trace *)

Lemma contextDraws_context (l : list GLCall) :
  filter isContextDraw (context <$> l) = context <$> drawCalls l.
Proof.
  unfold drawCalls. induction l as [|c l IH]; [reflexivity|].
  rewrite fmap_cons. destruct c;
    (rewrite filter_cons_False, (filter_cons_False _ _ l) by (cbn; tauto); exact IH)
    || (rewrite filter_cons_True, (filter_cons_True _ _ l) by exact I;
        rewrite fmap_cons; f_equal; exact IH).
Qed.

Lemma page_None_step (h : Host) (s : Shell) (e : ScriptEvent) :
  scriptInvariant h s -> page s = None ->
  hostContext s = None \/ (forall ds, e <> DisplaysFulfilled ds) ->
  page (scriptStep s e) = None.
Proof.
  intros H Epg He. open_state s H. subst pg.
  assert (pb = None) as ->.
  { destruct pb; [|reflexivity]. destruct (Hbtn ltac:(some)) as [_ [? [=]]]. }
  assert (pr = 0%nat /\ er = 0%nat) as [-> ->].
  { destruct pr, er; try (split; reflexivity);
      destruct (Hreq ltac:(lia)) as [? [=]]. }
  rewrite Hsched.
  destruct e; try reflexivity.
  - destruct He as [->|He]; [|now destruct (He displays)].
    cbn [scriptStep displaysPending]. destruct dp; [|reflexivity].
    unfold perform, onDisplays. destruct (last displays).
    + unfold mbind, State_bind, modify. cbn [set_displaysPending set_vrDisplay].
      shell_fields. now rewrite init_no_context.
    + unfold mbind, State_bind. cbn [set_displaysPending]. shell_fields.
      now rewrite init_no_context.
  - cbn [scriptStep displaysPending]. now destruct dp.
  - cbn [scriptStep vrDisplay]. now destruct vd.
Qed.

Lemma boot_no_page (h : Host) :
  webglContext h = None \/ hasGetVRDisplays h = true -> page (boot h) = None.
Proof.
  destruct h as [[|] [g|] [cw ch] [ow oh] dpr];
    cbn [hasGetVRDisplays webglContext]; intros [Hh|Hh];
    try discriminate Hh; reflexivity.
Qed.

(** ** Properties of the script *)

(** X6.  A frame outside VR presentation: the script clears, schedules the
    next frame on the window, sets the viewport to the whole canvas and
    calls [render] once, with the perspective projection of the canvas and
    the identity view.  That is one draw call over all 9600 indices if the
    renderer holds an image and none otherwise; one animation callback is
    pending afterwards. *)
Theorem flat_frame_draws (h : Host) (es : list ScriptEvent) (fd : FrameData)
    (w : World) :
  let s := scriptRun (boot h) es in
  page s = Some w -> presenting s = false ->
  let s' := scriptStep s (AnimationFrame fd) in
  traced s s' =
    [ clear (Z.lor COLOR_BUFFER_BIT DEPTH_BUFFER_BIT);
      window_requestAnimationFrame Handler_onAnimationFrame;
      viewport (ofZ 0) (ofZ 0) (canvasWidth s) (canvasHeight s) ] ++
    (context <$> frame w (flatProjection s) mat4_create) /\
  page s' = Some (exec (render (flatProjection s) mat4_create) w) /\
  filter isContextDraw (traced s s') =
    (if isReady (self w)
     then [context (drawElements TRIANGLES 9600 UNSIGNED_SHORT 0)] else []) /\
  uniformUploads (contextCalls (traced s s')) =
    (if isReady (self w)
     then [ uniformMatrix4fv (UniformOf "projectionMat") false (flatProjection s);
            uniformMatrix4fv (UniformOf "modelViewMat") false mat4_create ]
     else []) /\
  scheduled s' = 1%nat.
Proof.
  intros s Epg Epr s'.
  pose proof (scriptInvariant_run h es) as H. fold s in H.
  assert (Esc : scheduled s = 1%nat) by now rewrite (si_scheduled _ _ H), Epg.
  destruct (si_page _ _ H w Epg) as (g & es' & Hg & Hes & Hn & Hc).
  assert (Es' : s' = perform (onAnimationFrame fd) (set_scheduled 0 s)).
  { unfold s'. cbn [scriptStep]. now rewrite Esc. }
  rewrite (frame_flat _ w fd) in Es' by (destruct s; assumption).
  assert (Et : traced s s' =
    [ clear 16640; window_requestAnimationFrame Handler_onAnimationFrame;
      viewport (ofZ 0) (ofZ 0) (canvasWidth s) (canvasHeight s) ] ++
    (context <$> frame w (flatProjection s) mat4_create)).
  { apply traced_app. rewrite Es'. now destruct s. }
  split; [exact Et|]. split; [rewrite Es'; now destruct s|].
  rewrite Et. split; [|split; [|rewrite Es'; now destruct s]].
  - rewrite filter_app, contextDraws_context. unfold isReady.
    destruct (imgElement (self w)) as [img|] eqn:Ei.
    + rewrite Hes in Ei |- *. now rewrite (frame_loaded _ _ _ _ _ Ei).
    + now rewrite frame_idle.
  - trace_facts. unfold isReady.
    destruct (imgElement (self w)) as [img|] eqn:Ei.
    + rewrite Hes in Ei |- *. now rewrite (frame_loaded _ _ _ _ _ Ei).
    + now rewrite frame_idle.
Qed.

(** X7.  A frame while the display presents: the script clears, schedules
    the next frame on the display and fetches the frame data.  If the pose
    has an orientation it then calls [render] twice, first under the
    viewport of the left half of the canvas with the left projection, then
    under the viewport of the right half with the right projection, both
    times with the one view matrix made from the orientation;
    [submitFrame] is the last call.  That is two draw calls over all 9600
    indices if the renderer holds an image and none otherwise.  If the
    orientation is null the frame ends where [mat4.fromQuat] throws, after
    [getFrameData]: no viewport, no call of the renderer, no [submitFrame],
    and the view matrix is the old one.  Either way one animation callback
    is pending afterwards. *)
Theorem stereo_frame_draws (h : Host) (es : list ScriptEvent) (fd : FrameData)
    (w : World) :
  let s := scriptRun (boot h) es in
  page s = Some w -> presenting s = true ->
  let s' := scriptStep s (AnimationFrame fd) in
  let half := (canvasWidth s * decimal 5 1)%num in
  let draw := drawElements TRIANGLES 9600 UNSIGNED_SHORT 0 in
  match orientation fd with
  | Some q =>
      let V := mat4_invert (mat4_fromQuat q) in
      let w1 := exec (render (leftProjectionMatrix fd) V) w in
      traced s s' =
        [ clear (Z.lor COLOR_BUFFER_BIT DEPTH_BUFFER_BIT);
          display_requestAnimationFrame Handler_onAnimationFrame;
          display_getFrameData;
          viewport (ofZ 0) (ofZ 0) half (canvasHeight s) ] ++
        (context <$> frame w (leftProjectionMatrix fd) V) ++
        [ viewport half (ofZ 0) half (canvasHeight s) ] ++
        (context <$> frame w1 (rightProjectionMatrix fd) V) ++
        [ display_submitFrame ] /\
      page s' = Some (exec (render (rightProjectionMatrix fd) V) w1) /\
      viewMat s' = V /\
      filter isContextDraw (traced s s') =
        (if isReady (self w) then [context draw; context draw] else []) /\
      uniformUploads (contextCalls (traced s s')) =
        (if isReady (self w)
         then [ uniformMatrix4fv (UniformOf "projectionMat") false
                  (leftProjectionMatrix fd);
                uniformMatrix4fv (UniformOf "modelViewMat") false V;
                uniformMatrix4fv (UniformOf "projectionMat") false
                  (rightProjectionMatrix fd);
                uniformMatrix4fv (UniformOf "modelViewMat") false V ]
         else []) /\
      scheduled s' = 1%nat
  | None =>
      traced s s' =
        [ clear (Z.lor COLOR_BUFFER_BIT DEPTH_BUFFER_BIT);
          display_requestAnimationFrame Handler_onAnimationFrame;
          display_getFrameData ] /\
      page s' = Some w /\
      viewMat s' = viewMat s /\
      scheduled s' = 1%nat
  end.
Proof.
  intros s Epg Epr s' half draw.
  pose proof (scriptInvariant_run h es) as H. fold s in H.
  assert (Esc : scheduled s = 1%nat) by now rewrite (si_scheduled _ _ H), Epg.
  destruct (si_page _ _ H w Epg) as (g & es' & Hg & Hes & Hn & Hc).
  assert (Hfd : is_Some (frameData s)).
  { apply (si_frameData _ _ H), (si_display _ _ H).
    unfold presenting in Epr. destruct (vrDisplay s); [some|discriminate]. }
  destruct Hfd as [old Hold].
  assert (Es' : s' = perform (onAnimationFrame fd) (set_scheduled 0 s)).
  { unfold s'. cbn [scriptStep]. now rewrite Esc. }
  destruct (orientation fd) as [q|] eqn:Eq.
  2:{ rewrite (frame_stereo_blind _ w fd old) in Es' by (destruct s; assumption).
      split; [apply traced_app; rewrite Es'; now destruct s|].
      repeat split; rewrite Es'; now destruct s. }
  intros V w1.
  rewrite (frame_stereo _ w fd old q) in Es' by (destruct s; assumption).
  cbv zeta in Es'. fold V in Es'.
  assert (Et : traced s s' =
    [ clear 16640; display_requestAnimationFrame Handler_onAnimationFrame;
      display_getFrameData; viewport (ofZ 0) (ofZ 0) half (canvasHeight s) ] ++
    (context <$> frame w (leftProjectionMatrix fd) V) ++
    [ viewport half (ofZ 0) half (canvasHeight s) ] ++
    (context <$> frame w1 (rightProjectionMatrix fd) V) ++
    [ display_submitFrame ]).
  { apply traced_app. rewrite Es'. now destruct s. }
  assert (Hw1 : w1 = run (start g)
            (CallSetImage officeImage :: es' ++ [CallRender (leftProjectionMatrix fd) V])).
  { exact (proj1 (render_reached g es' w _ V (trace s) Hes Hc)). }
  assert (Ei1 : imgElement (self w1) = imgElement (self w)).
  { unfold w1. now rewrite (proj1 (render_self _ _ _)). }
  split; [exact Et|]. split; [rewrite Es'; now destruct s|].
  split; [rewrite Es'; now destruct s|].
  rewrite Et. split; [|split; [|rewrite Es'; now destruct s]].
  - rewrite !filter_app, !contextDraws_context. unfold isReady.
    destruct (imgElement (self w)) as [img|] eqn:Ei.
    + rewrite Hw1 in Ei1 |- *. rewrite (frame_loaded _ _ _ _ _ Ei1).
      rewrite Hes in Ei |- *. now rewrite (frame_loaded _ _ _ _ _ Ei).
    + now rewrite !frame_idle.
  - trace_facts. unfold isReady.
    destruct (imgElement (self w)) as [img|] eqn:Ei.
    + rewrite Hw1 in Ei1 |- *. rewrite (frame_loaded _ _ _ _ _ Ei1).
      rewrite Hes in Ei |- *. now rewrite (frame_loaded _ _ _ _ _ Ei).
    + now rewrite !frame_idle.
Qed.

(** X8.  The animation loop neither stops nor multiplies: at every moment
    exactly one animation callback is pending if the script has a renderer,
    and none if it has not; with no renderer an animation frame (were one
    to run) does nothing at all. *)
Theorem animation_loop_alive (h : Host) (es : list ScriptEvent) :
  let s := scriptRun (boot h) es in
  scheduled s = match page s with Some _ => 1%nat | None => 0%nat end /\
  (page s = None -> forall fd, scriptStep s (AnimationFrame fd) = s).
Proof.
  intros s. pose proof (scriptInvariant_run h es) as H. fold s in H.
  split; [exact (si_scheduled _ _ H)|].
  intros Epg fd. cbn [scriptStep]. now rewrite (si_scheduled _ _ H), Epg.
Qed.

(** X9.  Without a WebGL context, or as long as WebVR is there but
    [getVRDisplays()] has not been fulfilled (so also after it was
    rejected), the script has no renderer: no frame is scheduled and the
    renderer makes no call on any context. *)
Theorem no_renderer_without_displays (h : Host) (es : list ScriptEvent) :
  webglContext h = None \/
  (hasGetVRDisplays h = true /\ forall ds, DisplaysFulfilled ds ∉ es) ->
  let s := scriptRun (boot h) es in
  page s = None /\ scheduled s = 0%nat /\ contextCalls (trace s) = [].
Proof.
  intros Hh s. pose proof (scriptInvariant_run h es) as H. fold s in H.
  assert (Epg : page s = None).
  { subst s. clear H. induction es as [|e es IH] using rev_ind.
    - apply boot_no_page. destruct Hh as [Hh|[Hh _]]; [now left|now right].
    - rewrite scriptRun_snoc. apply (page_None_step h).
      + apply scriptInvariant_run.
      + apply IH. destruct Hh as [Hh|[Hvr Hes]]; [now left|right].
        split; [exact Hvr|]. intros ds Hds. apply (Hes ds), elem_of_app. now left.
      + destruct Hh as [Hh|[Hvr Hes]].
        * left. now rewrite (si_context _ _ (scriptInvariant_run h es)).
        * right. intros ds ->. apply (Hes ds), elem_of_app. right. now left. }
  split; [exact Epg|]. split.
  - now rewrite (si_scheduled _ _ H), Epg.
  - exact (si_no_page _ _ H Epg).
Qed.

(** X10.  The present buttons never pile up: the calls on the button helper
    start with one [addButton], and every later [addButton] directly
    follows the [removeButton] of the button added before it; the variable
    [vrPresentButton] holds the button added last. *)
Theorem present_buttons_alternate (h : Host) (es : list ScriptEvent) :
  alternates (filter isButtonCall (trace (scriptRun (boot h) es)))
    (vrPresentButton (scriptRun (boot h) es)).
Proof. exact (si_buttons _ _ (scriptInvariant_run h es)). Qed.

(** X11.  The script drives the renderer only through its interface: every
    renderer it holds is the one constructed on the host's context, after
    exactly one [setImage] call (of the office panorama, made first) and
    then only [render] calls and the image's events; and the calls of the
    renderer that the host saw are exactly the renderer's log. *)
Theorem script_drives_renderer (h : Host) (es : list ScriptEvent) (w : World) :
  page (scriptRun (boot h) es) = Some w ->
  exists g es',
    webglContext h = Some g /\
    w = run (start g) (CallSetImage officeImage :: es') /\
    Forall notSetImage es' /\
    length (loads w) = 1%nat /\
    calls (gl w) = calls g ++ contextCalls (trace (scriptRun (boot h) es)).
Proof.
  intros Epg.
  destruct (si_page _ _ (scriptInvariant_run h es) w Epg)
    as (g & es' & Hg & Hes & Hn & Hc).
  exists g, es'. repeat split; try assumption.
  rewrite Hes. clear -Hn. change (CallSetImage officeImage :: es')
    with ([CallSetImage officeImage] ++ es').
  unfold run. rewrite foldl_app. fold (run (start g) [CallSetImage officeImage]).
  assert (Hone : length (loads (run (start g) [CallSetImage officeImage])) = 1%nat)
    by now rewrite start_world.
  revert Hone. generalize (run (start g) [CallSetImage officeImage]) as w0.
  induction Hn as [|e es' He _ IH]; intros w0 Hone; [exact Hone|].
  cbn [foldl]. apply IH. destruct e as [url|k|k ev|P V]; cbn [step].
  - destruct He.
  - destruct (loads w0 !! k) as [[img p]|]; [|exact Hone].
    rewrite onload_world. cbn [loads]. now rewrite length_alter.
  - destruct (loads w0 !! k); [|exact Hone].
    rewrite onerror_world. cbn [loads]. now rewrite length_alter.
  - now rewrite (proj1 (proj2 (render_self _ _ _))).
Qed.

Lemma contextDraws_contextCalls (l : list ScriptCall) :
  filter isContextDraw l = context <$> drawCalls (contextCalls l).
Proof.
  induction l as [|c l IH]; [reflexivity|].
  change (c :: l) with ([c] ++ l).
  rewrite filter_app, contextCalls_app. unfold drawCalls in *.
  rewrite filter_app, fmap_app, <- IH. f_equal.
  destruct c as [| | | |c| | | | | | | | | | | |]; try reflexivity.
  now destruct c.
Qed.

(** X13.  The script never draws before the image is there: whenever it
    has no renderer, or its renderer holds no image, the calls that the host
    has seen contain no draw call, however many frames have run. *)
Theorem script_never_draws_without_image (h : Host) (es : list ScriptEvent) :
  let s := scriptRun (boot h) es in
  (forall w, page s = Some w -> isReady (self w) = false) ->
  filter isContextDraw (trace s) = [].
Proof.
  intros s Hidle. pose proof (scriptInvariant_run h es) as H. fold s in H.
  rewrite contextDraws_contextCalls.
  destruct (page s) as [w|] eqn:Epg.
  - destruct (si_page _ _ H w Epg) as (g & es' & Hg & Hes & Hn & Hc).
    rewrite <- (emittedGL_app _ _ _ Hc), Hes, idle_context_log; [reflexivity|].
    specialize (Hidle w eq_refl). unfold isReady in Hidle. rewrite <- Hes.
    now destruct (imgElement (self w)).
  - now rewrite (si_no_page _ _ H Epg).
Qed.
End Renderer.

(** * The page of the application

    The theorems above at the page that the entry point builds: a fresh
    context, [new Panorama(gl)], then [setImage] of the office panorama.
    The Numbers are those of the exact-arithmetic host. *)

(** C1 at the constructor's own parameters. *)

Lemma mesh_counts_witness :
  1 <= 40 /\ 1 <= 40 /\
  vertexCount (panoVerts (num:=R) radius latSegments lonSegments) = 1681 /\
  Z.of_nat (length (panoIndices latSegments lonSegments)) = 9600 /\
  Forall (fun k => 0 <= k < 1681) (panoIndices latSegments lonSegments).
Proof.
  split; [lia|]. split; [lia|].
  destruct (mesh_counts (num:=R) radius 40 40) as (_ & Hv & Hi & Hb); [lia|lia|].
  unfold latSegments, lonSegments. rewrite Hv in Hb.
  split; [exact Hv|]. split; [exact Hi|exact Hb].
Defined.

(** C2 on a page whose only load has failed. *)
Lemma render_before_load_witness :
  let es := [ CallSetImage "media/textures/kla_office_1.jpg";
              CallRender mat4_create mat4_create;
              FireError 0 {| message := None |} ] in
  (forall k, FireLoad k ∉ es) /\
  frame (num:=R) (run (start freshContext) es) mat4_create mat4_create = [].
Proof.
  intros es.
  assert (Hes : forall k, FireLoad (num:=R) k ∉ es).
  { intros k Hk. unfold es in Hk.
    repeat (apply elem_of_cons in Hk as [Hk|Hk]; [discriminate Hk|]).
    now apply elem_of_nil in Hk. }
  split; [exact Hes|].
  exact (proj1 (proj2 (render_before_load freshContext es mat4_create mat4_create Hes))).
Defined.

(** C3 on the page whose image has loaded. *)
Lemma render_after_load_witness :
  let es := [ CallSetImage "media/textures/kla_office_1.jpg"; FireLoad 0 ] in
  let w := run (num:=R) (start freshContext) es in
  (exists k img v, loads w !! k = Some (img, Fulfilled v)) /\
  drawCalls (frame w mat4_create mat4_create) =
    [drawElements TRIANGLES 9600 UNSIGNED_SHORT 0].
Proof.
  intros es w.
  assert (Hf : exists k img v, loads w !! k = Some (img, Fulfilled v)).
  { exists 0%nat,
      {| imageId := 0; crossOrigin := "anonymous";
         src := "media/textures/kla_office_1.jpg" |},
      (Some {| imageId := 0; crossOrigin := "anonymous";
               src := "media/textures/kla_office_1.jpg" |}).
    reflexivity. }
  split; [exact Hf|].
  destruct (render_after_load freshContext es Hf) as (Hone & _).
  exact (proj1 (proj2 (Hone mat4_create mat4_create))).
Defined.

(** C4, amended, on the page whose first load fails. *)
Lemma failed_load_rejects_witness :
  let w := run (num:=R) (start freshContext)
             [ CallSetImage "media/textures/kla_office_1.jpg" ] in
  let img := {| imageId := 0; crossOrigin := "anonymous";
                src := "media/textures/kla_office_1.jpg" |} in
  let w1 := step w (FireError 0 {| message := None |}) in
  loads w !! 0%nat = Some (img, Pending) /\
  imgElement (self w) = None /\
  loads w1 !! 0%nat = Some (img, Rejected None) /\
  drawCalls (frame w1 mat4_create mat4_create) = [].
Proof.
  intros w img w1.
  assert (Hk : loads w !! 0%nat = Some (img, Pending)) by reflexivity.
  assert (Hn : imgElement (self w) = None) by reflexivity.
  split; [exact Hk|]. split; [exact Hn|].
  destruct (failed_load_rejects w 0 {| message := None |} img Hk)
    as (Hr & _ & _ & _ & Hidle).
  split; [exact Hr|].
  exact (proj2 (proj2 (Hidle Hn) mat4_create mat4_create)).
Defined.

(** C4 as first stated (after a failed load the renderer is without a
    texture and [render] is a no-op) does not hold after an earlier success:
    the second load fails and its promise is rejected, yet the renderer is
    still ready and the following [render] call draws. *)
Lemma failed_load_after_success_still_draws :
  let w := run (num:=R) (start freshContext)
             [ CallSetImage "media/textures/kla_office_1.jpg"; FireLoad 0;
               CallSetImage "media/textures/missing.jpg" ] in
  let w1 := step w (FireError 1 {| message := None |}) in
  loads w1 !! 1%nat =
    Some ({| imageId := 1; crossOrigin := "anonymous";
             src := "media/textures/missing.jpg" |}, Rejected None) /\
  isReady (self w1) = true /\
  drawCalls (frame w1 mat4_create mat4_create) =
    [drawElements TRIANGLES 9600 UNSIGNED_SHORT 0] /\
  ~ (isReady (self w1) = false /\
     drawCalls (frame w1 mat4_create mat4_create) = []).
Proof.
  intros w w1.
  assert (Hr : isReady (self w1) = true) by reflexivity.
  split; [reflexivity|]. split; [exact Hr|]. split; [reflexivity|].
  intros [Hn _]. rewrite Hr in Hn. discriminate Hn.
Qed.

(** C8 on a page where a second image is about to replace the first. *)
Lemma texture_allocated_once_witness :
  let es := [ CallSetImage "media/textures/kla_office_1.jpg"; FireLoad 0;
              CallSetImage "media/textures/kla_office_2.jpg" ] in
  let w := run (num:=R) (start freshContext) es in
  let img := {| imageId := 1; crossOrigin := "anonymous";
                src := "media/textures/kla_office_2.jpg" |} in
  loads w !! 1%nat = Some (img, Pending) /\
  5%nat <> textureId (texture (self (start (num:=R) freshContext))) /\
  textureStore (gl w) !! 5%nat = None /\
  take 2 (emitted w (step w (FireLoad 1))) =
    [ bindTexture TEXTURE_2D (TextureObject 0);
      texImage2D TEXTURE_2D 0 RGB RGB UNSIGNED_BYTE img ].
Proof.
  intros es w img.
  assert (Hk : loads w !! 1%nat = Some (img, Pending)) by reflexivity.
  assert (Ht : 5%nat <> textureId (texture (self (start (num:=R) freshContext))))
    by discriminate.
  split; [exact Hk|]. split; [exact Ht|].
  destruct (texture_allocated_once (num:=R) freshContext es)
    as (_ & _ & _ & Hother & Hload).
  split; [exact (Hother 5%nat Ht)|].
  exact (proj1 (Hload 1%nat img Pending Hk)).
Defined.

(** C10 on the page where the second load fails after the first succeeded. *)
Lemma failed_load_keeps_image_witness :
  let es := [ CallSetImage "media/textures/kla_office_1.jpg"; FireLoad 0;
              CallSetImage "media/textures/missing.jpg" ] in
  let w := run (num:=R) (start freshContext) es in
  let img := {| imageId := 0; crossOrigin := "anonymous";
                src := "media/textures/kla_office_1.jpg" |} in
  let w1 := step w (FireError 1 {| message := None |}) in
  (exists k' img' v, loads w !! k' = Some (img', Fulfilled v)) /\
  exists img'', imgElement (self w1) = Some img'' /\
    drawCalls (frame w1 mat4_create mat4_create) =
      [drawElements TRIANGLES 9600 UNSIGNED_SHORT 0].
Proof.
  intros es w img w1.
  assert (Hf : exists k' img' v, loads w !! k' = Some (img', Fulfilled v)).
  { exists 0%nat, img, (Some img). reflexivity. }
  split; [exact Hf|].
  destruct (failed_load_keeps_image (num:=R) freshContext es 1 {| message := None |})
    as (_ & _ & _ & Hkeep).
  destruct (Hkeep Hf) as (img'' & _ & E1 & _ & Hdraw).
  exists img''. split; [exact E1|].
  exact (proj1 (Hdraw mat4_create mat4_create)).
Defined.

(** * The vertex formulas in exact arithmetic

    Read over the real numbers, where no operation rounds, the formulas of
    the vertex loop put every vertex on the sphere of the given radius and
    the first and last ring on its poles.  These are facts about the
    formulas, not about the double-precision values that the host computes
    with its own sine and cosine. *)

Lemma vertex_on_sphere_exact (r : R) (L N i j : Z) :
  0 <= i <= L -> 0 <= j <= N ->
  exists x y z u v,
    vertexAt (panoVerts r L N) (Z.to_nat (i * (N + 1) + j)) = [x; y; z; u; v] /\
    (x * x + y * y + z * z = r * r)%R.
Proof.
  intros Hi Hj. rewrite vertexAt_panoVerts by assumption.
  do 5 eexists. split; [reflexivity|].
  cbn [mul div neg ofZ Math_sin Math_cos Math_PI R_host].
  set (theta := (IZR i * PI / IZR L)%R).
  set (phi := (IZR j * IZR 2 * PI / IZR N)%R).
  pose proof (sin2_cos2 theta) as Ht. pose proof (sin2_cos2 phi) as Hp.
  unfold Rsqr in Ht, Hp.
  replace (sin phi * sin theta * r * (sin phi * sin theta * r) +
           cos theta * r * (cos theta * r) +
           - cos phi * sin theta * r * (- cos phi * sin theta * r))%R
    with (r * r * (sin theta * sin theta * (sin phi * sin phi + cos phi * cos phi)
                   + cos theta * cos theta))%R by ring.
  rewrite Hp, Rmult_1_r, Ht. ring.
Qed.

Lemma poles_exact (j : Z) :
  0 <= j <= 40 ->
  let verts := panoVerts (num:=R) radius latSegments lonSegments in
  take 3 (vertexAt verts (Z.to_nat (0 * 41 + j))) = [0; 2; 0]%R /\
  take 3 (vertexAt verts (Z.to_nat (40 * 41 + j))) = [0; -2; 0]%R.
Proof.
  intros Hj verts. subst verts. unfold latSegments, lonSegments.
  change 41 with (40 + 1). rewrite !vertexAt_panoVerts by lia.
  cbn [take vertex mul div neg ofZ Math_sin Math_cos Math_PI R_host radius].
  replace (IZR 0 * PI / IZR 40)%R with 0%R by (simpl; field).
  replace (IZR 40 * PI / IZR 40)%R with PI by (simpl; field).
  rewrite sin_0, cos_0, sin_PI, cos_PI.
  split; f_equal; [ring|f_equal; [ring|f_equal; ring]
                  |ring|f_equal; [ring|f_equal; ring]].
Qed.

(** * The poles in double arithmetic *)


Section Poles.
Import PrimFloat SpecFloat FloatOps FloatAxioms.
Local Open Scope float_scope.






End Poles.

Section PolesAt.
Import PrimFloat.
Local Open Scope float_scope.



End PolesAt.

(** * The script on the symbolic host

    The theorems about the index array, the loads and the script at
    concrete pages; the Numbers are those of the symbolic host. *)

(** X1 at the constructor's parameters: the last vertex is indexed. *)
Lemma every_vertex_indexed_witness :
  1 <= 40 /\ 1 <= 40 /\ 1680 ∈ panoIndices 40 40.
Proof.
  split; [lia|]. split; [lia|].
  apply (every_vertex_indexed 40 40 1680); lia.
Defined.

(** X2 at the constructor's parameters: 3200 triangles. *)
Lemma triangles_nondegenerate_witness :
  0 <= 40 /\ 0 <= 40 /\
  Z.of_nat (length (triangles (panoIndices 40 40))) = 2 * 40 * 40.
Proof.
  split; [lia|]. split; [lia|].
  apply (triangles_nondegenerate 40 40); lia.
Defined.

(** X4 on the page whose image has loaded. *)
Lemma draw_reads_inside_buffers_witness :
  let es := [ CallSetImage officeImage; FireLoad 0 ] in
  let img := {| imageId := 0; crossOrigin := "anonymous"; src := officeImage |} in
  let w := run (num:=Sym) (start freshContext) es in
  imgElement (self w) = Some img /\
  exists verts idx,
    arrayBuffer (gl (exec (render mat4_create mat4_create) w)) =
      Some (vertBuffer (self w)) /\
    bufferStore (gl (exec (render mat4_create mat4_create) w))
      !! bufferId (vertBuffer (self w)) = Some (Float32Array verts) /\
    elementArrayBuffer (gl (exec (render mat4_create mat4_create) w)) =
      Some (indexBuffer (self w)) /\
    bufferStore (gl (exec (render mat4_create mat4_create) w))
      !! bufferId (indexBuffer (self w)) = Some (Uint16Array idx) /\
    last (frame w mat4_create mat4_create) =
      Some (drawElements TRIANGLES (Z.of_nat (length idx)) UNSIGNED_SHORT 0) /\
    Forall (fun k => 0 <= k /\ 20 * k + 20 <= 4 * Z.of_nat (length verts)) idx.
Proof.
  intros es img w.
  assert (E : imgElement (self w) = Some img) by reflexivity.
  split; [exact E|].
  exact (draw_reads_inside_buffers freshContext es mat4_create mat4_create img E).
Defined.

(** X5 when the image requested first loads last. *)
Lemma last_load_wins_witness :
  let es := [ CallSetImage "a.jpg"; CallSetImage "b.jpg"; FireLoad 1 ] in
  let es' := [ CallRender mat4_create mat4_create;
               FireError 1 {| message := None |} ] in
  let img := {| imageId := 0; crossOrigin := "anonymous"; src := "a.jpg" |} in
  loads (run (num:=Sym) (start freshContext) es) !! 0%nat = Some (img, Pending) /\
  (forall j, FireLoad j ∉ es') /\
  imgElement
    (self (run (step (run (num:=Sym) (start freshContext) es) (FireLoad 0)) es')) =
    Some img.
Proof.
  intros es es' img.
  assert (Hk : loads (run (num:=Sym) (start freshContext) es) !! 0%nat =
               Some (img, Pending)) by reflexivity.
  assert (Hes' : forall j, FireLoad (num:=Sym) j ∉ es').
  { intros j Hj. unfold es' in Hj.
    repeat (apply elem_of_cons in Hj as [Hj|Hj]; [discriminate Hj|]).
    now apply elem_of_nil in Hj. }
  split; [exact Hk|]. split; [exact Hes'|].
  exact (proj1 (last_load_wins freshContext es es' 0 img Pending Hk Hes')).
Defined.

(** X12 on a page whose only load has failed. *)
Lemma never_drew_without_image_witness :
  let es := [ CallSetImage officeImage; CallRender mat4_create mat4_create;
              FireError 0 {| message := None |};
              CallRender mat4_create mat4_create ] in
  isReady (self (run (num:=Sym) (start freshContext) es)) = false /\
  drawCalls (emittedGL freshContext (gl (run (num:=Sym) (start freshContext) es))) = [].
Proof.
  intros es.
  assert (E : isReady (self (run (num:=Sym) (start freshContext) es)) = false)
    by reflexivity.
  split; [exact E|]. exact (never_drew_without_image freshContext es E).
Defined.

(** X6 on a browser without WebVR, once the image has loaded. *)
Lemma flat_frame_draws_witness :
  let h := desktopHost (num:=Sym) false (Some freshContext) in
  let s := scriptRun (boot h) [ImageLoad 0] in
  let w := run (start freshContext) [CallSetImage officeImage; FireLoad 0] in
  page s = Some w /\ presenting s = false /\
  filter isContextDraw (traced s (scriptStep s (AnimationFrame sampleFrame))) =
    [context (drawElements TRIANGLES 9600 UNSIGNED_SHORT 0)] /\
  scheduled (scriptStep s (AnimationFrame sampleFrame)) = 1%nat.
Proof.
  intros h s w.
  assert (Hp : page s = Some w) by (vm_compute; reflexivity).
  assert (Hv : presenting s = false) by reflexivity.
  split; [exact Hp|]. split; [exact Hv|].
  destruct (flat_frame_draws h [ImageLoad 0] sampleFrame w Hp Hv)
    as (_ & _ & Hd & _ & Hs).
  split; [exact Hd|exact Hs].
Defined.

(** X7 on a presenting headset after the image has loaded: a frame with an
    orientation draws once per eye, a frame without one stops after
    [getFrameData] and leaves the renderer as it was. *)
Lemma stereo_frame_draws_witness :
  let h := desktopHost (num:=Sym) true (Some freshContext) in
  let s := scriptRun (boot h)
             [DisplaysFulfilled [headset]; HostPresenting true; ImageLoad 0] in
  let w := run (start freshContext) [CallSetImage officeImage; FireLoad 0] in
  page s = Some w /\ presenting s = true /\
  (filter isContextDraw (traced s (scriptStep s (AnimationFrame sampleFrame))) =
     [ context (drawElements TRIANGLES 9600 UNSIGNED_SHORT 0);
       context (drawElements TRIANGLES 9600 UNSIGNED_SHORT 0) ] /\
   scheduled (scriptStep s (AnimationFrame sampleFrame)) = 1%nat) /\
  (traced s (scriptStep s (AnimationFrame blindFrame)) =
     [ clear 16640; display_requestAnimationFrame Handler_onAnimationFrame;
       display_getFrameData ] /\
   page (scriptStep s (AnimationFrame blindFrame)) = Some w /\
   scheduled (scriptStep s (AnimationFrame blindFrame)) = 1%nat).
Proof.
  intros h s w.
  assert (Hp : page s = Some w) by (vm_compute; reflexivity).
  assert (Hv : presenting s = true) by reflexivity.
  split; [exact Hp|]. split; [exact Hv|]. split.
  - destruct (stereo_frame_draws h
                [DisplaysFulfilled [headset]; HostPresenting true; ImageLoad 0]
                sampleFrame w Hp Hv) as (_ & _ & _ & Hd & _ & Hs).
    split; [exact Hd|exact Hs].
  - destruct (stereo_frame_draws h
                [DisplaysFulfilled [headset]; HostPresenting true; ImageLoad 0]
                blindFrame w Hp Hv) as (Ht & Hw & _ & Hs).
    split; [exact Ht|]. split; [exact Hw|exact Hs].
Defined.

(** X9 on a browser whose [getVRDisplays()] is rejected. *)
Lemma no_renderer_without_displays_witness :
  let h := desktopHost (num:=Sym) true (Some freshContext) in
  let es := [DisplaysRejected; AnimationFrame sampleFrame; ImageLoad 0] in
  (webglContext h = None \/
   (hasGetVRDisplays h = true /\ forall ds, DisplaysFulfilled ds ∉ es)) /\
  page (scriptRun (boot h) es) = None /\
  trace (scriptRun (boot h) es) =
    [navigator_getVRDisplays; addError "Error initializing WebVR!" None].
Proof.
  intros h es.
  assert (Hh : webglContext h = None \/
               (hasGetVRDisplays h = true /\ forall ds, DisplaysFulfilled ds ∉ es)).
  { right. split; [reflexivity|]. intros ds Hds. unfold es in Hds.
    repeat (apply elem_of_cons in Hds as [Hds|Hds]; [discriminate Hds|]).
    now apply elem_of_nil in Hds. }
  split; [exact Hh|].
  split; [exact (proj1 (no_renderer_without_displays h es Hh))|reflexivity].
Defined.

(** X11 on a browser without WebVR, once the image has loaded. *)
Lemma script_drives_renderer_witness :
  let h := desktopHost (num:=Sym) false (Some freshContext) in
  let w := run (start freshContext) [CallSetImage officeImage; FireLoad 0] in
  page (scriptRun (boot h) [ImageLoad 0]) = Some w /\
  exists g es',
    webglContext h = Some g /\
    w = run (start g) (CallSetImage officeImage :: es') /\
    Forall notSetImage es' /\
    length (loads w) = 1%nat /\
    calls (gl w) = calls g ++ contextCalls (trace (scriptRun (boot h) [ImageLoad 0])).
Proof.
  intros h w.
  assert (Hp : page (scriptRun (boot h) [ImageLoad 0]) = Some w)
    by (vm_compute; reflexivity).
  split; [exact Hp|]. exact (script_drives_renderer h [ImageLoad 0] w Hp).
Defined.

(** X13 on a browser without WebVR, two frames before the image loads. *)
Lemma script_never_draws_without_image_witness :
  let h := desktopHost (num:=Sym) false (Some freshContext) in
  let s := scriptRun (boot h) [AnimationFrame sampleFrame; AnimationFrame sampleFrame] in
  (forall w, page s = Some w -> isReady (self w) = false) /\
  filter isContextDraw (trace s) = [].
Proof.
  intros h s.
  assert (Hidle : forall w, page s = Some w -> isReady (self w) = false).
  { intros w Hw.
    assert (E : (fun w => isReady (self w)) <$> page s = Some false)
      by (vm_compute; reflexivity).
    rewrite Hw in E. now injection E. }
  split; [exact Hidle|].
  exact (script_never_draws_without_image h
           [AnimationFrame sampleFrame; AnimationFrame sampleFrame] Hidle).
Defined.
